(** * GarIA: the detection result pipeline

    A shallow embedding of

    - [app/domain/ml/entities.py] ([BoundingBox], [Detection],
      [DetectionResult], [ModelConfiguration]),
    - [app/infrastructure/ml/yolo_model.py] ([YOLOModelLoader],
      [YOLOInference.predict]),
    - [app/services/ml/object_detection_service.py]
      ([ObjectDetectionService]),

    followed by the properties of the pipeline.

    Conventions.  Python floats are modelled as rationals ([Q]); no
    rounding, infinities or NaN.  The properties that read a float
    therefore rest on comparisons, on selections by comparison ([max],
    [min], the filters) and on the sign of a difference only, which
    rounding leaves as they are; the value of a quotient is stated only
    in the worked example at the end of the claims, for its two
    numbers.  Python ints are [Z].  A dictionary with
    string keys is a [gmap string pyval].  A method that can raise returns
    a [result]; a method that reads or writes the service object, or talks
    to the outside (file system, the YOLO engine, the clock), is a function
    from the state [World] to a [result] and the next [World].  An
    exception is a class name with its message, and every exception is an
    [Exception], so that [except Exception] catches it.  [print] calls are
    left out. *)

From Stdlib Require Import Ascii String QArith Lqa.
From stdpp Require Import gmap strings list.

Open Scope string_scope.
Open Scope list_scope.

(** ** Python values held in dictionaries and untyped fields *)

#[warnings="-register-all"]
Inductive pyval :=
| VNone
| VBool (b : bool)
| VInt (z : Z)
| VFloat (q : Q)
| VStr (s : string)
| VList (l : list pyval).

Abbreviation dict := (gmap string pyval).

(** [d.get(k, default)] *)
Definition dict_get (d : dict) (k : string) (dflt : pyval) : pyval :=
  match d !! k with
  | Some v => v
  | None => dflt
  end.

(** [VStr s], or [None] when the string is absent *)
Definition opt_str (o : option string) : pyval :=
  match o with
  | Some s => VStr s
  | None => VNone
  end.

(** The numeric reading of a value: [bool] is a subclass of [int]. *)
Definition as_number (v : pyval) : option Q :=
  match v with
  | VInt z => Some (inject_Z z)
  | VFloat q => Some q
  | VBool b => Some (if b then 1%Q else 0%Q)
  | _ => None
  end.

(** ** Exceptions and results *)

Inductive exn := Exn (cls : string) (msg : string).

(** [str(e)] *)
Definition str (e : exn) : string :=
  match e with Exn _ msg => msg end.

Definition ValueError := Exn "ValueError".
Definition TypeError := Exn "TypeError".
Definition AttributeError := Exn "AttributeError".
Definition IndexError := Exn "IndexError".
Definition KeyError := Exn "KeyError".
Definition ZeroDivisionError := Exn "ZeroDivisionError".

Inductive result (A : Type) :=
| Ok (a : A)
| Raise (e : exn).
Arguments Ok {A} a.
Arguments Raise {A} e.

Definition rbind {A B} (r : result A) (k : A -> result B) : result B :=
  match r with
  | Ok a => k a
  | Raise e => Raise e
  end.

Declare Scope result_scope.
Delimit Scope result_scope with result.
Notation "'let?' x := r 'in' k" := (rbind r (fun x => k))
  (at level 10, x name, r at level 100, k at level 200) : result_scope.

(** [a >= b] and [a > b] on floats *)
Definition float_ge (a b : Q) : bool := Qle_bool b a.
Definition float_gt (a b : Q) : bool := negb (Qle_bool a b).

(** [d[k]] *)
Definition dict_index (d : dict) (k : string) : result pyval :=
  match d !! k with
  | Some v => Ok v
  | None => Raise (KeyError k)
  end.

(** [lit <= v], [v <= lit] and [v > lit] for a numeric literal [lit] and
    an untyped [v]: a [TypeError] unless [v] is a number. *)
Definition num_le (lit : Q) (v : pyval) : result bool :=
  match as_number v with
  | Some q => Ok (Qle_bool lit q)
  | None => Raise (TypeError "'<=' not supported")
  end.

Definition le_num (v : pyval) (lit : Q) : result bool :=
  match as_number v with
  | Some q => Ok (Qle_bool q lit)
  | None => Raise (TypeError "'<=' not supported")
  end.

Definition gt_num (v : pyval) (lit : Q) : result bool :=
  match as_number v with
  | Some q => Ok (negb (Qle_bool q lit))
  | None => Raise (TypeError "'>' not supported")
  end.

(** [a and b], where evaluating [a] or [b] may raise: [b] is evaluated
    only when [a] is true. *)
Definition and_then (a b : result bool) : result bool :=
  match a with
  | Ok true => b
  | Ok false => Ok false
  | Raise e => Raise e
  end.

(** ** entities.py *)

Module BoundingBox.
Record t := { x1 : Q; y1 : Q; x2 : Q; y2 : Q }.

Definition width (b : t) : Q := x2 b - x1 b.
Definition height (b : t) : Q := y2 b - y1 b.
Definition area (b : t) : Q := width b * height b.
Definition center (b : t) : Q * Q :=
  ((x1 b + x2 b) / 2, (y1 b + y2 b) / 2)%Q.
End BoundingBox.

Module Detection.
Record t := {
  class_id : Z;
  class_name : string;
  confidence : Q;
  bbox : BoundingBox.t;
  bbox_normalized : option dict
}.

Definition is_valid (self : t) (min_confidence : Q) : bool :=
  float_ge (confidence self) min_confidence &&
  (Qle_bool 0 (confidence self) && Qle_bool (confidence self) 1) &&
  float_gt (BoundingBox.width (bbox self)) 0 &&
  float_gt (BoundingBox.height (bbox self)) 0.
End Detection.

(** [max(l)] and [min(l)]: the first largest (smallest) element; a
    [ValueError] on the empty list. *)
Fixpoint max_from (x : Q) (l : list Q) : Q :=
  match l with
  | [] => x
  | y :: l' => max_from (if float_gt y x then y else x) l'
  end.

Fixpoint min_from (x : Q) (l : list Q) : Q :=
  match l with
  | [] => x
  | y :: l' => min_from (if float_gt x y then y else x) l'
  end.

Definition py_max (l : list Q) : result Q :=
  match l with
  | [] => Raise (ValueError "max() arg is an empty sequence")
  | x :: l' => Ok (max_from x l')
  end.

Definition py_min (l : list Q) : result Q :=
  match l with
  | [] => Raise (ValueError "min() arg is an empty sequence")
  | x :: l' => Ok (min_from x l')
  end.

(** [a / len(l)]: a [ZeroDivisionError] when the list is empty. *)
Definition div_len (a : Q) (n : nat) : result Q :=
  match n with
  | O => Raise (ZeroDivisionError "division by zero")
  | S _ => Ok (a / inject_Z (Z.of_nat n))%Q
  end.

(** [sum(l)] *)
Definition py_sum (l : list Q) : Q := fold_left Qplus l 0%Q.

(** [x in l] for a list of strings *)
Definition str_in (x : string) (l : list string) : bool :=
  bool_decide (x ∈ l).

Module DetectionResult.
Record t := {
  detections : list Detection.t;
  image_info : dict;
  processing_time : Q;
  model_info : dict;
  timestamp : Q
}.

Definition detection_count (self : t) : nat := length (detections self).

(** [list(set(...))]: the distinct class names.  Python leaves the
    order of a set unspecified; here it is the order of
    [elements]. *)
Definition unique_classes (self : t) : list string :=
  elements (list_to_set (Detection.class_name <$> detections self) : gset string).

Definition filter_by_confidence (self : t) (min_confidence : Q) : list Detection.t :=
  List.filter (fun d => float_ge (Detection.confidence d) min_confidence)
    (detections self).

Definition filter_by_class (self : t) (class_names : list string) : list Detection.t :=
  List.filter (fun d => str_in (Detection.class_name d) class_names)
    (detections self).

Definition get_statistics (self : t) : result dict :=
  match detections self with
  | [] =>
      Ok (<["total_detections" := VInt 0]>
         (<["unique_classes" := VList []]>
         (<["avg_confidence" := VFloat 0]>
         (<["max_confidence" := VFloat 0]>
         (<["min_confidence" := VFloat 0]> ∅)))))
  | _ :: _ =>
      let confidences := Detection.confidence <$> detections self in
      let? avg := div_len (py_sum confidences) (length confidences) in
      let? mx := py_max confidences in
      let? mn := py_min confidences in
      Ok (<["total_detections" := VInt (Z.of_nat (length (detections self)))]>
         (<["unique_classes" := VList (VStr <$> unique_classes self)]>
         (<["avg_confidence" := VFloat avg]>
         (<["max_confidence" := VFloat mx]>
         (<["min_confidence" := VFloat mn]>
         (<["processing_time" := VFloat (processing_time self)]> ∅))))))
  end%result.
End DetectionResult.

Module ModelConfiguration.
(** The dataclass does not check its field types and
    [detect_objects] fills the three numeric fields with whatever the
    caller's dictionary holds, so they are [pyval]s. *)
Record t := {
  model_name : string;
  model_path : string;
  confidence_threshold : pyval;
  iou_threshold : pyval;
  max_detections : pyval;
  target_classes : option (list string)
}.

Definition is_valid (self : t) : result bool :=
  and_then (and_then (num_le 0 (confidence_threshold self))
                     (le_num (confidence_threshold self) 1))
 (and_then (and_then (num_le 0 (iou_threshold self))
                     (le_num (iou_threshold self) 1))
           (gt_num (max_detections self) 0)).
End ModelConfiguration.

(** ** The outside world

    What the service calls but does not own: the file system, the
    ultralytics engine, PIL and the clock.  Every such call is logged in
    the [World]'s [trace] (most recent first), and the answer of the
    outside may depend on everything that happened before.  The trace
    also records each call of [ModelConfiguration.is_valid] the service
    makes, so that "before any validation" can be said of a run. *)

(** A loaded [YOLO] object: what the service reads of it. *)
Record YOLO := {
  weights : string;
  device : string;
  task : option string
}.

Record PILImage := {
  img_width : Z;
  img_height : Z;
  img_format : option string;
  img_mode : string
}.

(** [Union[str, Image.Image, np.ndarray]], and anything else. *)
Inductive ImageSource :=
| SrcStr (path : string)
| SrcPIL (img : PILImage)
| SrcArray (shape : list Z) (dtype : string)
| SrcOther.

(** One dictionary of the list [YOLOInference.predict] returns: its
    keys are fixed and its values are cast with [int] and [float], so
    it is a record here.  [raw_bbox_normalized] may be missing
    ([_convert_to_domain_entities] reads it with [get]). *)
Record RawDetection := {
  raw_class_id : Z;
  raw_class_name : string;
  raw_confidence : Q;
  raw_bbox : Q * Q * Q * Q;
  raw_bbox_normalized : option dict
}.

Inductive event :=
| EvIsValid (c : ModelConfiguration.t)
| EvExists (path : string)
| EvYOLO (path : string)
| EvModelCall (m : YOLO) (source : ImageSource) (conf iou max_det classes : pyval)
| EvTime
| EvNow
| EvImageOpen (path : string).

Record Env := {
  (** [os.path.exists(path)] *)
  os_path_exists : list event -> string -> bool;
  (** [YOLO(path)], after [configure_torch_serialization()] *)
  YOLO_new : list event -> string -> result YOLO;
  (** [model(source, conf=, iou=, max_det=, classes=, verbose=False)]
      and the reading of its boxes into dictionaries
      (yolo_model.py lines 107 to 140) *)
  model_call : list event -> YOLO -> ImageSource -> pyval -> pyval -> pyval -> pyval ->
               result (list RawDetection);
  (** [time.time()] *)
  time_time : list event -> Q;
  (** [datetime.now()] *)
  datetime_now : list event -> Q;
  (** [Image.open(path)] *)
  Image_open : list event -> string -> result PILImage
}.

(** ** The service object and its loader *)

Record YOLOModelLoader := {
  model : option YOLO;
  model_path : option string
}.

Record World := {
  model_loader : YOLOModelLoader;
  model_config : option ModelConfiguration.t;
  trace : list event
}.

(** [ObjectDetectionService(config)] in a world where nothing happened. *)
Definition fresh : World :=
  {| model_loader := {| model := None; model_path := None |};
     model_config := None;
     trace := [] |}.

Definition M (A : Type) : Type := World -> result A * World.

Definition ret {A} (a : A) : M A := fun w => (Ok a, w).
Definition raise {A} (e : exn) : M A := fun w => (Raise e, w).
Definition bind {A B} (m : M A) (k : A -> M B) : M B :=
  fun w =>
    match m w with
    | (Ok a, w') => k a w'
    | (Raise e, w') => (Raise e, w')
    end.

(** [try: body except Exception as e: handler(e)] *)
Definition try_except {A} (body : M A) (handler : exn -> M A) : M A :=
  fun w =>
    match body w with
    | (Ok a, w') => (Ok a, w')
    | (Raise e, w') => handler e w'
    end.

Definition lift {A} (r : result A) : M A := fun w => (r, w).

Declare Scope M_scope.
Delimit Scope M_scope with M.
Notation "'do' x <- m ; k" := (bind m (fun x => k))
  (at level 10, x name, m at level 100, k at level 200) : M_scope.
Notation "'do_' m ; k" := (bind m (fun _ => k))
  (at level 10, m at level 100, k at level 200) : M_scope.

Definition log (e : event) : M unit :=
  fun w => (Ok tt, {| model_loader := model_loader w;
                      model_config := model_config w;
                      trace := e :: trace w |}).

(** A call to the outside: the answer is read at the current trace,
    then the call is logged. *)
Definition ask {A} (answer : list event -> A) (e : event) : M A :=
  fun w => (Ok (answer (trace w)),
            {| model_loader := model_loader w;
               model_config := model_config w;
               trace := e :: trace w |}).

Definition get_loader : M YOLOModelLoader := fun w => (Ok (model_loader w), w).
Definition set_loader (l : YOLOModelLoader) : M unit :=
  fun w => (Ok tt, {| model_loader := l;
                      model_config := model_config w;
                      trace := trace w |}).
Definition get_model_config : M (option ModelConfiguration.t) :=
  fun w => (Ok (model_config w), w).
Definition set_model_config (c : ModelConfiguration.t) : M unit :=
  fun w => (Ok tt, {| model_loader := model_loader w;
                      model_config := Some c;
                      trace := trace w |}).

Section Service.
Variable env : Env.

Open Scope M_scope.

(** *** yolo_model.py *)

(** [os.path.join("models", model_name)] on POSIX: an absolute
    [model_name] wins. *)
Definition join_models (model_name : string) : string :=
  match model_name with
  | String "/"%char _ => model_name
  | _ => ("models/" ++ model_name)%string
  end.

Definition load_model (model_name : string) : M YOLO :=
  do l <- get_loader;
  let loaded :=
    match model l with
    | Some m => if bool_decide (model_path l = Some model_name) then Some m else None
    | None => None
    end in
  match loaded with
  | Some m => ret m
  | None =>
      let path0 := join_models model_name in
      do found <- ask (fun tr => os_path_exists env tr path0) (EvExists path0);
      let path1 := if found : bool then path0 else model_name in
      try_except
        (do r <- ask (fun tr => YOLO_new env tr path1) (EvYOLO path1);
         do m <- lift r;
         do_ set_loader {| model := Some m; model_path := model_path l |};
         do_ set_loader {| model := Some m; model_path := Some model_name |};
         ret m)
        (fun e => raise e)
  end.

Definition get_model_info : M dict :=
  do l <- get_loader;
  match model l with
  | None => ret {[ "status" := VStr "not_loaded" ]}
  | Some m =>
      ret (<["status" := VStr "loaded"]>
          (<["model_path" := opt_str (model_path l)]>
          (<["device" := VStr (device m)]>
          (<["task" := VStr (default "unknown" (task m))]> ∅))))
  end.

Definition predict (source : ImageSource)
    (confidence iou_threshold max_detections classes : pyval) : M (list RawDetection) :=
  do l <- get_loader;
  match model l with
  | None => raise (ValueError "Modelo não carregado. Chame load_model() primeiro.")
  | Some m =>
      try_except
        (do r <- ask (fun tr => model_call env tr m source confidence iou_threshold
                                  max_detections classes)
                     (EvModelCall m source confidence iou_threshold max_detections classes);
         lift r)
        (fun e => raise e)
  end.

(** *** object_detection_service.py *)

Definition initialize_model (cfg : ModelConfiguration.t) : M bool :=
  try_except
    (do_ log (EvIsValid cfg);
     do valid <- lift (ModelConfiguration.is_valid cfg);
     if negb valid then raise (ValueError "Configuração do modelo inválida")
     else
       do_ set_model_config cfg;
       do_ load_model (ModelConfiguration.model_name cfg);
       ret true)
    (fun _ => ret false).

Definition _merge_configs (custom_config : dict) : M dict :=
  do mc <- get_model_config;
  match mc with
  | None => raise (ValueError "Modelo não inicializado. Chame initialize_model() primeiro.")
  | Some c =>
      let default_config : dict :=
        <["confidence" := ModelConfiguration.confidence_threshold c]>
        (<["iou_threshold" := ModelConfiguration.iou_threshold c]>
        (<["max_detections" := ModelConfiguration.max_detections c]> ∅)) in
      (* default_config.update(custom_config) *)
      ret (custom_config ∪ default_config)
  end.

Definition _convert_to_domain_entities (raw_detections : list RawDetection)
    : list Detection.t :=
  (fun raw =>
     let '(x1, y1, x2, y2) := raw_bbox raw in
     {| Detection.class_id := raw_class_id raw;
        Detection.class_name := raw_class_name raw;
        Detection.confidence := raw_confidence raw;
        Detection.bbox := {| BoundingBox.x1 := x1; BoundingBox.y1 := y1;
                             BoundingBox.x2 := x2; BoundingBox.y2 := y2 |};
        Detection.bbox_normalized := raw_bbox_normalized raw |})
  <$> raw_detections.

(** [shape[i]] on a tuple *)
Definition shape_index (shape : list Z) (i : nat) : result Z :=
  match shape !! i with
  | Some n => Ok n
  | None => Raise (IndexError "tuple index out of range")
  end.

(** Reading a local name of a function.  [from PIL import Image] at
    line 176 stands inside the first branch of [_get_image_info], so
    [Image] is a local name of that function, bound only once that
    import has run; reading it before raises.  The message is the one of
    CPython 3.11 and later. *)
Definition read_local {A : Type} (name : string) (msg : string) (v : option A) : M A :=
  match v with
  | Some a => ret a
  | None => raise (Exn "UnboundLocalError" msg)
  end.

Definition Image_unbound : string :=
  "cannot access local variable 'Image' where it is not associated with a value".

Definition _get_image_info (image_source : ImageSource) : M dict :=
  try_except
    match image_source with
    | SrcStr path =>
        (* [from PIL import Image] binds the local name here *)
        do r <- ask (fun tr => Image_open env tr path) (EvImageOpen path);
        do img <- lift r;
        ret (<["width" := VInt (img_width img)]>
            (<["height" := VInt (img_height img)]>
            (<["format" := opt_str (img_format img)]>
            (<["mode" := VStr (img_mode img)]>
            (<["source_type" := VStr "file_path"]> ∅)))))
    | _ =>
        (* [elif isinstance(image_source, Image.Image)]: the local
           [Image] is read, and no import has bound it *)
        do_ read_local "Image" Image_unbound (None : option unit);
        match image_source with
        | SrcPIL img =>
            ret (<["width" := VInt (img_width img)]>
                (<["height" := VInt (img_height img)]>
                (<["format" := opt_str (img_format img)]>
                (<["mode" := VStr (img_mode img)]>
                (<["source_type" := VStr "pil_image"]> ∅)))))
        | SrcArray shape dtype =>
            do width <- lift (if bool_decide (1 < length shape)%nat
                              then shape_index shape 1 else shape_index shape 0);
            do height <- lift (shape_index shape 0);
            do channels <- lift (if bool_decide (2 < length shape)%nat
                                 then shape_index shape 2 else Ok 1%Z);
            ret (<["width" := VInt width]>
                (<["height" := VInt height]>
                (<["channels" := VInt channels]>
                (<["dtype" := VStr dtype]>
                (<["source_type" := VStr "numpy_array"]> ∅)))))
        | _ => ret {[ "source_type" := VStr "unknown" ]}
        end
    end
    (fun e => ret (<["error" := VStr (str e)]>
                  (<["source_type" := VStr "error"]> ∅))).

(** The configuration [detect_objects] builds from the caller's
    dictionary (lines 47 to 53). *)
Definition request_config (custom_config : dict) : ModelConfiguration.t :=
  {| ModelConfiguration.model_name := "GarIA.pt";
     ModelConfiguration.model_path := "models/GarIA.pt";
     ModelConfiguration.confidence_threshold :=
       dict_get custom_config "confidence" (VFloat 0.25);
     ModelConfiguration.iou_threshold :=
       dict_get custom_config "iou_threshold" (VFloat 0.45);
     ModelConfiguration.max_detections :=
       dict_get custom_config "max_detections" (VInt 1000);
     ModelConfiguration.target_classes := None |}.

Definition detect_objects (image_source : ImageSource)
    (custom_config : option dict) : M DetectionResult.t :=
  do cc <- match custom_config with
           | Some d => ret d
           | None => raise (AttributeError "'NoneType' object has no attribute 'get'")
           end;
  do_ initialize_model (request_config cc);
  do mc <- get_model_config;
  match mc with
  | None => raise (ValueError "Modelo não inicializado. Chame initialize_model() primeiro.")
  | Some _ =>
      do start_time <- ask (time_time env) EvTime;
      try_except
        (do config <- _merge_configs cc;
         do confidence <- lift (dict_index config "confidence");
         do iou_threshold <- lift (dict_index config "iou_threshold");
         do max_detections <- lift (dict_index config "max_detections");
         do raw_detections <-
           predict image_source confidence iou_threshold max_detections
             (dict_get config "class_ids" VNone);
         let detections := _convert_to_domain_entities raw_detections in
         do mc' <- get_model_config;
         do detections <-
           match mc' with
           | None => raise (AttributeError "'NoneType' object has no attribute 'target_classes'")
           | Some c =>
               match ModelConfiguration.target_classes c with
               | Some tc =>
                   ret (List.filter (fun d => str_in (Detection.class_name d) tc) detections)
               | None => ret detections
               end
           end;
         do end_time <- ask (time_time env) EvTime;
         do image_info <- _get_image_info image_source;
         do model_info <- get_model_info;
         do timestamp <- ask (datetime_now env) EvNow;
         ret {| DetectionResult.detections := detections;
                DetectionResult.image_info := image_info;
                DetectionResult.processing_time := (end_time - start_time)%Q;
                DetectionResult.model_info := model_info;
                DetectionResult.timestamp := timestamp |})
        (fun e => raise e)
  end.

(** The [DetectionResult] the batch loop stores for an image whose
    processing raised [e]. *)
Definition failed_result (e : exn) : M DetectionResult.t :=
  do model_info <- get_model_info;
  do timestamp <- ask (datetime_now env) EvNow;
  ret {| DetectionResult.detections := [];
         DetectionResult.image_info := {[ "error" := VStr (str e) ]};
         DetectionResult.processing_time := 0;
         DetectionResult.model_info := model_info;
         DetectionResult.timestamp := timestamp |}.

(** The [for] loop of [detect_objects_batch], [results] being the
    list built so far. *)
Fixpoint batch_loop (image_sources : list ImageSource) (custom_config : option dict)
    (results : list DetectionResult.t) : M (list DetectionResult.t) :=
  match image_sources with
  | [] => ret results
  | image_source :: rest =>
      do results' <-
        try_except
          (do result <- detect_objects image_source custom_config;
           ret (results ++ [result]))
          (fun e =>
             do result <- failed_result e;
             ret (results ++ [result]));
      batch_loop rest custom_config results'
  end.

Definition detect_objects_batch (image_sources : list ImageSource)
    (custom_config : option dict) : M (list DetectionResult.t) :=
  batch_loop image_sources custom_config [].

End Service.

(** ** Reading a trace *)

(** The inference calls among some events, oldest first: the source and
    the four arguments [conf], [iou], [max_det] and [classes]. *)
Fixpoint model_calls (tr : list event)
    : list (ImageSource * pyval * pyval * pyval * pyval) :=
  match tr with
  | [] => []
  | EvModelCall _ source conf iou max_det classes :: tr' =>
      model_calls tr' ++ [(source, conf, iou, max_det, classes)]
  | _ :: tr' => model_calls tr'
  end.

(** The loads attempted among some events, oldest first. *)
Fixpoint yolo_loads (tr : list event) : list string :=
  match tr with
  | [] => []
  | EvYOLO path :: tr' => yolo_loads tr' ++ [path]
  | _ :: tr' => yolo_loads tr'
  end.

(** The world in which [initialize_model cfg] calls [load_model]: [cfg]
    has been validated and stored. *)
Definition validated (cfg : ModelConfiguration.t) (w : World) : World :=
  {| model_loader := model_loader w;
     model_config := Some cfg;
     trace := EvIsValid cfg :: trace w |}.

(** ** A stub engine

    The detector of the specification's end-to-end example: every model
    file loads, and every image yields a bottle (0.9) and a bag (0.1),
    except ["broken.jpg"], which cannot be decoded.  The clock counts the
    events so far. *)

Definition bottle : RawDetection :=
  {| raw_class_id := 0; raw_class_name := "bottle"; raw_confidence := 0.9;
     raw_bbox := (0, 0, 10, 10)%Q; raw_bbox_normalized := None |}.

Definition bag : RawDetection :=
  {| raw_class_id := 1; raw_class_name := "bag"; raw_confidence := 0.1;
     raw_bbox := (5, 5, 8, 8)%Q; raw_bbox_normalized := None |}.

Definition stub_env : Env :=
  {| os_path_exists := fun _ _ => true;
     YOLO_new := fun _ path =>
       Ok {| weights := path; device := "cpu"; task := Some "detect" |};
     model_call := fun _ _ source _ _ _ _ =>
       match source with
       | SrcStr "broken.jpg" => Raise (Exn "UnidentifiedImageError" "cannot identify image file")
       | _ => Ok [bottle; bag]
       end;
     time_time := fun tr => inject_Z (Z.of_nat (length tr));
     datetime_now := fun tr => inject_Z (Z.of_nat (length tr));
     Image_open := fun _ path =>
       match path with
       | "broken.jpg" => Raise (Exn "UnidentifiedImageError" "cannot identify image file")
       | _ => Ok {| img_width := 640; img_height := 480;
                    img_format := Some "JPEG"; img_mode := "RGB" |}
       end |}.

(** A configuration with an allow-list, as a caller of
    [initialize_model] may supply it. *)
Definition bottle_only : ModelConfiguration.t :=
  {| ModelConfiguration.model_name := "GarIA.pt";
     ModelConfiguration.model_path := "models/GarIA.pt";
     ModelConfiguration.confidence_threshold := VFloat 0.25;
     ModelConfiguration.iou_threshold := VFloat 0.45;
     ModelConfiguration.max_detections := VInt 1000;
     ModelConfiguration.target_classes := Some ["bottle"] |}.

(** ** Vocabulary of the properties *)

(** [w'] is [w] with the events [new] added to its trace and the
    service object untouched. *)
Definition logged (new : list event) (w : World) : World :=
  {| model_loader := model_loader w;
     model_config := model_config w;
     trace := new ++ trace w |}.

(** The events a call added, when it took the world from [w] to [w']. *)
Definition new_events (w w' : World) : list event :=
  take (length (trace w') - length (trace w)) (trace w').

(** The path [load_model] hands to [YOLO(...)]: the file under
    [models/] when it exists, the bare name otherwise. *)
Definition resolved_path (env : Env) (model_name : string) (w : World) : string :=
  if os_path_exists env (trace w) (join_models model_name)
  then join_models model_name else model_name.

(** What the loop body appends for one image, and the world it leaves. *)
Definition slot (env : Env) (image_source : ImageSource) (custom_config : option dict)
    (w : World) : DetectionResult.t * World :=
  match detect_objects env image_source custom_config w with
  | (Ok result, w') => (result, w')
  | (Raise e, we) =>
      let model_info := match get_model_info we with
                        | (Ok info, _) => info
                        | (Raise _, _) => ∅
                        end in
      ({| DetectionResult.detections := [];
          DetectionResult.image_info := {[ "error" := VStr (str e) ]};
          DetectionResult.processing_time := 0;
          DetectionResult.model_info := model_info;
          DetectionResult.timestamp := datetime_now env (trace we) |},
       {| model_loader := model_loader we;
          model_config := model_config we;
          trace := EvNow :: trace we |})
  end.

(** The arguments of the inference call, read off the merged
    dictionary: the caller's value for a key it gives, the stored
    configuration's otherwise. *)
Definition call_of (c : ModelConfiguration.t) (custom_config : dict)
    (m : YOLO) (source : ImageSource) : event :=
  EvModelCall m source
    (dict_get custom_config "confidence" (ModelConfiguration.confidence_threshold c))
    (dict_get custom_config "iou_threshold" (ModelConfiguration.iou_threshold c))
    (dict_get custom_config "max_detections" (ModelConfiguration.max_detections c))
    (dict_get custom_config "class_ids" VNone).

(** The class filter of [detect_objects] (lines 73 to 79). *)
Definition retained (c : ModelConfiguration.t) (detections : list Detection.t)
    : list Detection.t :=
  match ModelConfiguration.target_classes c with
  | Some tc => List.filter (fun d => str_in (Detection.class_name d) tc) detections
  | None => detections
  end.

(** The ways a call [detect_objects(source, custom_config)] can end,
    seen from the world [w1] its [initialize_model] step left: the
    result, and the world after the call. *)
Inductive outcome (env : Env) (source : ImageSource) (custom_config : dict)
    (w1 : World) : result DetectionResult.t -> World -> Prop :=
| not_initialized :
    model_config w1 = None ->
    outcome env source custom_config w1
      (Raise (ValueError "Modelo não inicializado. Chame initialize_model() primeiro."))
      w1
| not_loaded c :
    model_config w1 = Some c ->
    model (model_loader w1) = None ->
    outcome env source custom_config w1
      (Raise (ValueError "Modelo não carregado. Chame load_model() primeiro."))
      (logged [EvTime] w1)
| inference_failed c m e :
    model_config w1 = Some c ->
    model (model_loader w1) = Some m ->
    model_call env (EvTime :: trace w1) m source
      (dict_get custom_config "confidence" (ModelConfiguration.confidence_threshold c))
      (dict_get custom_config "iou_threshold" (ModelConfiguration.iou_threshold c))
      (dict_get custom_config "max_detections" (ModelConfiguration.max_detections c))
      (dict_get custom_config "class_ids" VNone) = Raise e ->
    outcome env source custom_config w1 (Raise e)
      (logged [call_of c custom_config m source; EvTime] w1)
| detected c m raw r new :
    model_config w1 = Some c ->
    model (model_loader w1) = Some m ->
    model_call env (EvTime :: trace w1) m source
      (dict_get custom_config "confidence" (ModelConfiguration.confidence_threshold c))
      (dict_get custom_config "iou_threshold" (ModelConfiguration.iou_threshold c))
      (dict_get custom_config "max_detections" (ModelConfiguration.max_detections c))
      (dict_get custom_config "class_ids" VNone) = Ok raw ->
    DetectionResult.detections r = retained c (_convert_to_domain_entities raw) ->
    model_calls new = [] ->
    outcome env source custom_config w1 (Ok r)
      (logged (new ++ [call_of c custom_config m source; EvTime]) w1).

(** ** Runs on the stub engine *)

(** The service after one request without overrides. *)
Definition after_default : World :=
  snd (detect_objects stub_env (SrcStr "a.jpg") (Some ∅) fresh).

(** The service after one request with confidence 0.5: its active
    configuration is [{0.5, 0.45, 1000}]. *)
Definition after_half : World :=
  snd (detect_objects stub_env (SrcStr "a.jpg") (Some {[ "confidence" := VFloat 0.5 ]}) fresh).

(** The service after [initialize_model(bottle_only)]. *)
Definition with_allow_list : World :=
  snd (initialize_model stub_env bottle_only fresh).

Ltac unfold_M :=
  unfold bind, try_except, ret, raise, lift, log, ask, get_loader, set_loader,
    get_model_config, set_model_config in *.

(** ** More of the loader, the service and the controller *)

(** [YOLOModelLoader.unload_model].  The release of the CUDA cache and
    the [print] act on nothing the loader holds and are left out. *)
Definition unload_model : M unit :=
  bind get_loader (fun l =>
  match model l with
  | Some _ => set_loader {| model := None; model_path := None |}
  | None => ret tt
  end).

(** The keyword parameters of [YOLOInference.predict]. *)
Definition predict_parameters : list string :=
  ["confidence"; "iou_threshold"; "max_detections"; "classes"].

(** [self.predict(source, **kwargs)]: a keyword that is not a parameter
    of [predict] (or that names [source] again) is a [TypeError]; a
    parameter that is not given has its default.  Python's message
    names the offending keyword; here it is the same for all. *)
Definition predict_with (env : Env) (source : ImageSource) (kwargs : dict)
    : M (list RawDetection) :=
  if bool_decide (dom kwargs ⊆ (list_to_set predict_parameters : gset string))
  then predict env source
         (dict_get kwargs "confidence" (VFloat 0.25))
         (dict_get kwargs "iou_threshold" (VFloat 0.45))
         (dict_get kwargs "max_detections" (VInt 1000))
         (dict_get kwargs "classes" VNone)
  else raise (TypeError "predict() got an unexpected keyword argument").

(** The [for] loop of [YOLOInference.predict_batch], [results] being the
    list built so far. *)
Fixpoint predict_batch_loop (env : Env) (sources : list ImageSource) (kwargs : dict)
    (results : list (list RawDetection)) : M (list (list RawDetection)) :=
  match sources with
  | [] => ret results
  | source :: rest =>
      bind (predict_with env source kwargs) (fun detections =>
      predict_batch_loop env rest kwargs (results ++ [detections]))
  end.

Definition predict_batch (env : Env) (sources : list ImageSource) (kwargs : dict)
    : M (list (list RawDetection)) :=
  predict_batch_loop env sources kwargs [].

(** [dataclasses.asdict] on a [ModelConfiguration] *)
Definition asdict (c : ModelConfiguration.t) : dict :=
  <["model_name" := VStr (ModelConfiguration.model_name c)]>
  (<["model_path" := VStr (ModelConfiguration.model_path c)]>
  (<["confidence_threshold" := ModelConfiguration.confidence_threshold c]>
  (<["iou_threshold" := ModelConfiguration.iou_threshold c]>
  (<["max_detections" := ModelConfiguration.max_detections c]>
  (<["target_classes" :=
       match ModelConfiguration.target_classes c with
       | Some tc => VList (VStr <$> tc)
       | None => VNone
       end]> ∅))))).

(** The dictionary [get_model_status] returns: its three keys are
    fixed and two of its values are dictionaries, so it is a record
    here. *)
Record ModelStatus := {
  status_model_loaded : bool;
  status_model_config : option dict;
  status_model_info : dict
}.

(** [v == s] for a string literal [s] *)
Definition eq_str (v : pyval) (s : string) : bool :=
  match v with
  | VStr s' => bool_decide (s' = s)
  | _ => false
  end.

Definition get_model_status : M ModelStatus :=
  bind get_model_info (fun model_info =>
  bind (lift (dict_index model_info "status")) (fun status =>
  bind get_model_config (fun mc =>
  ret {| status_model_loaded := eq_str status "loaded";
         status_model_config := asdict <$> mc;
         status_model_info := model_info |}))).

(** *** detection_controller.py *)

Definition ALLOWED_EXTENSIONS : list string :=
  ["png"; "jpg"; "jpeg"; "gif"; "bmp"; "tiff"; "webp"].

(** ['.' in s] *)
Fixpoint has_dot (s : string) : bool :=
  match s with
  | EmptyString => false
  | String c s' => if Ascii.eqb c "." then true else has_dot s'
  end.

(** [s.rsplit('.', 1)]: the string cut at its last dot, or the string
    alone when it has none. *)
Fixpoint rsplit_dot (s : string) : list string :=
  match s with
  | EmptyString => [EmptyString]
  | String c s' =>
      match rsplit_dot s' with
      | [head; tail] => [String c head; tail]
      | _ => if Ascii.eqb c "." then [EmptyString; s'] else [String c s']
      end
  end.

(** [c.lower()] for an ASCII letter; any other byte is kept. *)
Definition lower_ascii (c : ascii) : ascii :=
  let n := nat_of_ascii c in
  if (65 <=? n)%nat && (n <=? 90)%nat then ascii_of_nat (n + 32) else c.

(** [s.lower()].  A file name is its UTF-8 bytes; only ASCII letters are
    lowered.  Python also lowers letters outside ASCII, to letters
    outside ASCII except for the Kelvin sign, which becomes [k]: no
    allowed extension has a [k], so membership in [ALLOWED_EXTENSIONS]
    is the same. *)
Fixpoint lower (s : string) : string :=
  match s with
  | EmptyString => EmptyString
  | String c s' => String (lower_ascii c) (lower s')
  end.

(** [l[i]] on a list of strings *)
Definition str_index (l : list string) (i : nat) : result string :=
  match l !! i with
  | Some s => Ok s
  | None => Raise (IndexError "list index out of range")
  end.

Definition allowed_file (filename : string) : result bool :=
  if has_dot filename
  then rbind (str_index (rsplit_dot filename) 1)
         (fun ext => Ok (str_in (lower ext) ALLOWED_EXTENSIONS))
  else Ok false.

(** The [counts] loop of the two endpoints:
    [counts[d.class_name] = counts.get(d.class_name, 0) + 1]. *)
Definition class_counts (detections : list Detection.t) : gmap string Z :=
  fold_left
    (fun counts d =>
       <[Detection.class_name d := (default 0 (counts !! Detection.class_name d) + 1)%Z]> counts)
    detections ∅.

(** The dictionary the upload endpoint hands to [detect_objects]. *)
Definition detection_config (custom_config : dict) : dict :=
  <["confidence" := dict_get custom_config "confidence" (VFloat 0.25)]>
  (<["iou_threshold" := dict_get custom_config "iou_threshold" (VFloat 0.45)]>
  (<["max_detections" := dict_get custom_config "max_detections" (VInt 1000)]> ∅)).

(** *** Predicates of the properties *)

(** The loader holds a model exactly when it holds the name it was
    loaded under. *)
Definition loader_consistent (l : YOLOModelLoader) : Prop :=
  model l = None <-> model_path l = None.

(** The clock does not go back. *)
Definition clock_monotone (env : Env) : Prop :=
  forall (tr : list event) (e : event),
    (time_time env tr <= time_time env (e :: tr))%Q.

(** The number of detections of a class. *)
Definition count_class (k : string) (detections : list Detection.t) : Z :=
  Z.of_nat (length (List.filter (fun d => bool_decide (Detection.class_name d = k)) detections)).

(** The arguments [predict] gets from the keywords [kwargs]. *)
Definition call_args (kwargs : dict) (source : ImageSource)
    : ImageSource * pyval * pyval * pyval * pyval :=
  (source,
   dict_get kwargs "confidence" (VFloat 0.25),
   dict_get kwargs "iou_threshold" (VFloat 0.45),
   dict_get kwargs "max_detections" (VInt 1000),
   dict_get kwargs "classes" VNone).

(** The stub engine on a machine without model files: every
    [YOLO(...)] raises. *)
Definition offline_env : Env :=
  {| os_path_exists := fun _ _ => false;
     YOLO_new := fun _ path => Raise (Exn "FileNotFoundError" path);
     model_call := model_call stub_env;
     time_time := time_time stub_env;
     datetime_now := datetime_now stub_env;
     Image_open := Image_open stub_env |}.

(** * Properties *)

(** ** Floats *)

Lemma float_ge_iff (a b : Q) : float_ge a b = true <-> (b <= a)%Q.
Proof. unfold float_ge. apply Qle_bool_iff. Qed.

Lemma float_gt_iff (a b : Q) : float_gt a b = true <-> (b < a)%Q.
Proof.
  unfold float_gt. rewrite negb_true_iff. split.
  - intros H. apply Qnot_le_lt. intros Hle.
    apply Qle_bool_iff in Hle. congruence.
  - intros H. destruct (Qle_bool a b) eqn:E; [|reflexivity].
    apply Qle_bool_iff in E. exfalso. revert E. now apply Qlt_not_le.
Qed.

(** ** Detection *)

(** C3: [d.is_valid(c)] is true exactly when [d.confidence >= c],
    [0 <= d.confidence <= 1], [d.bbox.width > 0] and
    [d.bbox.height > 0].  It is a total function to [bool], so it
    cannot raise; on a box of zero or negative width or height the
    answer is [false]. *)
Theorem Detection_is_valid_iff (d : Detection.t) (c : Q) :
  (Detection.is_valid d c = true <->
     (Detection.confidence d >= c)%Q /\
     (0 <= Detection.confidence d <= 1)%Q /\
     (BoundingBox.width (Detection.bbox d) > 0)%Q /\
     (BoundingBox.height (Detection.bbox d) > 0)%Q) /\
  ((BoundingBox.width (Detection.bbox d) <= 0)%Q \/
   (BoundingBox.height (Detection.bbox d) <= 0)%Q ->
     Detection.is_valid d c = false).
Proof.
  assert (Hiff : Detection.is_valid d c = true <->
     (Detection.confidence d >= c)%Q /\
     (0 <= Detection.confidence d <= 1)%Q /\
     (BoundingBox.width (Detection.bbox d) > 0)%Q /\
     (BoundingBox.height (Detection.bbox d) > 0)%Q).
  { unfold Detection.is_valid.
    rewrite !andb_true_iff, float_ge_iff, !float_gt_iff, !Qle_bool_iff.
    tauto. }
  split; [exact Hiff|].
  intros Hdeg. apply not_true_is_false. intros E.
  apply Hiff in E. destruct E as (_ & _ & Hw & Hh).
  destruct Hdeg as [H|H]; exfalso; revert H; now apply Qlt_not_le.
Qed.

(** ** DetectionResult *)

Lemma filter_sublist {A} (f : A -> bool) (l : list A) :
  List.filter f l `sublist_of` l.
Proof.
  induction l as [|x l IH]; simpl.
  - constructor.
  - destruct (f x); now constructor.
Qed.

(** C5: every element of [r.filter_by_confidence(c)] has confidence at
    least [c]; every stored detection with confidence at least [c] is in
    the output; the output is a subsequence of [r.detections], in the
    stored order.  The method is a function of [r] and [c] that returns
    a new list: [r.detections] is only read. *)
Theorem filter_by_confidence_spec (r : DetectionResult.t) (c : Q) :
  Forall (fun d => (Detection.confidence d >= c)%Q)
    (DetectionResult.filter_by_confidence r c) /\
  (forall d, d ∈ DetectionResult.detections r ->
     (Detection.confidence d >= c)%Q ->
     d ∈ DetectionResult.filter_by_confidence r c) /\
  DetectionResult.filter_by_confidence r c `sublist_of` DetectionResult.detections r.
Proof.
  unfold DetectionResult.filter_by_confidence. split; [|split].
  - apply List.Forall_forall. intros d Hd.
    apply List.filter_In in Hd. destruct Hd as [_ Hd].
    now apply float_ge_iff in Hd.
  - intros d Hd Hc. apply list_elem_of_In, List.filter_In.
    split; [now apply list_elem_of_In|]. now apply float_ge_iff.
  - apply filter_sublist.
Qed.

Lemma get_statistics_nonempty_ok (r : DetectionResult.t) :
  DetectionResult.detections r <> [] ->
  exists avg mx mn,
    DetectionResult.get_statistics r =
      Ok (<["total_detections" :=
              VInt (Z.of_nat (length (DetectionResult.detections r)))]>
         (<["unique_classes" := VList (VStr <$> DetectionResult.unique_classes r)]>
         (<["avg_confidence" := VFloat avg]>
         (<["max_confidence" := VFloat mx]>
         (<["min_confidence" := VFloat mn]>
         (<["processing_time" := VFloat (DetectionResult.processing_time r)]> ∅)))))).
Proof.
  unfold DetectionResult.get_statistics.
  destruct (DetectionResult.detections r) as [|d ds]; [congruence|].
  intros _. cbn [fmap list_fmap length div_len py_max py_min rbind].
  eauto.
Qed.

(** C4: [get_statistics()] never raises, on the empty sequence neither
    (no division by zero, no [max] or [min] of an empty list).  On a
    non-empty sequence the dictionary has the six keys
    [total_detections], [unique_classes], [avg_confidence],
    [max_confidence], [min_confidence] and [processing_time].  On the
    empty sequence it has the first five, with the values [0], [[]],
    [0.0], [0.0], [0.0], and no [processing_time]. *)
Theorem get_statistics_keys (r : DetectionResult.t) :
  exists stats,
    DetectionResult.get_statistics r = Ok stats /\
    (DetectionResult.detections r = [] ->
       stats !! "total_detections" = Some (VInt 0) /\
       stats !! "unique_classes" = Some (VList []) /\
       stats !! "avg_confidence" = Some (VFloat 0) /\
       stats !! "max_confidence" = Some (VFloat 0) /\
       stats !! "min_confidence" = Some (VFloat 0) /\
       stats !! "processing_time" = None) /\
    (DetectionResult.detections r <> [] ->
       stats !! "total_detections" =
         Some (VInt (Z.of_nat (length (DetectionResult.detections r)))) /\
       is_Some (stats !! "unique_classes") /\
       is_Some (stats !! "avg_confidence") /\
       is_Some (stats !! "max_confidence") /\
       is_Some (stats !! "min_confidence") /\
       stats !! "processing_time" = Some (VFloat (DetectionResult.processing_time r))).
Proof.
  destruct (DetectionResult.detections r) as [|d ds] eqn:E.
  - unfold DetectionResult.get_statistics. rewrite E.
    eexists. split; [reflexivity|]. split; [|congruence].
    intros _. repeat split; reflexivity.
  - destruct (get_statistics_nonempty_ok r) as (avg & mx & mn & Hs);
      [congruence|].
    rewrite Hs, E. eexists. split; [reflexivity|]. split; [congruence|].
    intros _. repeat split; try (eexists; reflexivity); reflexivity.
Qed.

(** ** initialize_model *)

(** [initialize_model] in closed form: the [try] block either runs to
    [return True], or some step of it raises and the handler answers
    [False]. *)
Lemma initialize_model_unfold (env : Env) (cfg : ModelConfiguration.t) (w : World) :
  initialize_model env cfg w =
    match ModelConfiguration.is_valid cfg with
    | Ok true =>
        match load_model env (ModelConfiguration.model_name cfg) (validated cfg w) with
        | (Ok _, w') => (Ok true, w')
        | (Raise _, w') => (Ok false, w')
        end
    | _ =>
        (Ok false, {| model_loader := model_loader w;
                      model_config := model_config w;
                      trace := EvIsValid cfg :: trace w |})
    end.
Proof.
  unfold initialize_model, try_except, bind, log, lift, set_model_config,
    validated, ret, raise.
  destruct (ModelConfiguration.is_valid cfg) as [[|]|e]; cbn -[load_model];
    try reflexivity.
  destruct (load_model env _ _) as [[m|e] w']; reflexivity.
Qed.

(** C10: [initialize_model] never raises: it returns [True] when the
    configuration is valid and the model loads, and [False] on any
    failure (an invalid configuration, an [is_valid] that raises, a
    model-load error).  When the configuration does not pass
    [is_valid()], [self.model_config] is left as it was. *)
Theorem initialize_model_never_raises
    (env : Env) (cfg : ModelConfiguration.t) (w : World) :
  exists (b : bool) (w' : World),
    initialize_model env cfg w = (Ok b, w') /\
    (b = true <->
       ModelConfiguration.is_valid cfg = Ok true /\
       exists m w1,
         load_model env (ModelConfiguration.model_name cfg) (validated cfg w) = (Ok m, w1)) /\
    (ModelConfiguration.is_valid cfg <> Ok true ->
       b = false /\ model_config w' = model_config w).
Proof.
  rewrite initialize_model_unfold.
  destruct (ModelConfiguration.is_valid cfg) as [[|]|e] eqn:Hv.
  - destruct (load_model env _ _) as [[m|e] w1] eqn:Hl.
    + exists true, w1. split; [reflexivity|]. split; [|congruence].
      split; [|reflexivity]. intros _. split; [reflexivity|]. eauto.
    + exists false, w1. split; [reflexivity|]. split; [|congruence].
      split; [discriminate|]. intros [_ (m & w2 & H)]. discriminate.
  - eexists false, _. split; [reflexivity|].
    split; [split; [discriminate|intros [H _]; discriminate]|].
    intros _. split; reflexivity.
  - eexists false, _. split; [reflexivity|].
    split; [split; [discriminate|intros [H _]; discriminate]|].
    intros _. split; reflexivity.
Qed.

(** ** load_model *)

(** What [load_model] does when it cannot reuse the loaded model. *)
Lemma load_model_reload (env : Env) (model_name : string) (w : World) :
  (model (model_loader w) = None \/
   model_path (model_loader w) <> Some model_name) ->
  load_model env model_name w =
    let path := resolved_path env model_name w in
    let tr := EvExists (join_models model_name) :: trace w in
    match YOLO_new env tr path with
    | Ok m =>
        (Ok m, {| model_loader := {| model := Some m; model_path := Some model_name |};
                  model_config := model_config w;
                  trace := EvYOLO path :: tr |})
    | Raise e =>
        (Raise e, {| model_loader := model_loader w;
                     model_config := model_config w;
                     trace := EvYOLO path :: tr |})
    end.
Proof.
  intros Hmiss. unfold load_model, resolved_path. unfold_M. cbn.
  assert (Hsel : match model (model_loader w) with
                 | Some m => if bool_decide (model_path (model_loader w) = Some model_name)
                             then Some m else None
                 | None => None
                 end = None).
  { destruct (model (model_loader w)) as [m|]; [|reflexivity].
    destruct Hmiss as [?|Hne]; [discriminate|].
    now rewrite bool_decide_eq_false_2. }
  rewrite Hsel. cbn.
  destruct (YOLO_new env _ _) as [m|e]; reflexivity.
Qed.

(** What [load_model] does when the model is loaded under that name. *)
Lemma load_model_reuse (env : Env) (model_name : string) (w : World) (m : YOLO) :
  model (model_loader w) = Some m ->
  model_path (model_loader w) = Some model_name ->
  load_model env model_name w = (Ok m, w).
Proof.
  intros Hm Hp. unfold load_model. unfold_M. cbn.
  rewrite Hm, bool_decide_eq_true_2 by exact Hp. reflexivity.
Qed.

(** A successful [load_model] leaves the model loaded under the
    requested name. *)
Lemma load_model_ok_loaded (env : Env) (model_name : string) (w w' : World) (m : YOLO) :
  load_model env model_name w = (Ok m, w') ->
  model (model_loader w') = Some m /\ model_path (model_loader w') = Some model_name.
Proof.
  destruct (model (model_loader w)) as [m0|] eqn:Hm.
  - destruct (decide (model_path (model_loader w) = Some model_name)) as [Hp|Hp].
    + rewrite (load_model_reuse env model_name w m0 Hm Hp).
      intros [= <- <-]. auto.
    + rewrite load_model_reload by auto. cbn.
      destruct (YOLO_new env _ _); intros [= <- <-]; auto.
  - rewrite load_model_reload by auto. cbn.
    destruct (YOLO_new env _ _); intros [= <- <-]; auto.
Qed.

(** C8: after a successful [load_model(m)], a second [load_model(m)]
    returns the same handle and changes nothing: the loader's [model]
    and [model_path] are as they were and no [YOLO(...)] call is added
    to the trace.  A call with another name asks the file system and
    calls [YOLO(...)] again; when that raises, so does [load_model], and
    the loader keeps the old model. *)
Theorem load_model_idempotent
    (env : Env) (model_name : string) (w w' : World) (m : YOLO) :
  load_model env model_name w = (Ok m, w') ->
  load_model env model_name w' = (Ok m, w') /\
  (forall other, other <> model_name ->
     let path := resolved_path env other w' in
     let tr := EvExists (join_models other) :: trace w' in
     match YOLO_new env tr path with
     | Ok m2 =>
         load_model env other w' =
           (Ok m2, {| model_loader := {| model := Some m2; model_path := Some other |};
                      model_config := model_config w';
                      trace := EvYOLO path :: tr |})
     | Raise e =>
         load_model env other w' =
           (Raise e, {| model_loader := model_loader w';
                        model_config := model_config w';
                        trace := EvYOLO path :: tr |})
     end).
Proof.
  intros Hload. apply load_model_ok_loaded in Hload as [Hm Hp].
  split.
  - now apply load_model_reuse.
  - intros other Hne path tr. subst path tr.
    rewrite (load_model_reload env other w') by (right; congruence).
    cbn. destruct (YOLO_new env _ _); reflexivity.
Qed.

(** C8 at the stub engine: [GarIA.pt] loads from a fresh service, and
    loading it again changes nothing. *)
Lemma load_model_idempotent_witness :
  let w' := snd (load_model stub_env "GarIA.pt" fresh) in
  load_model stub_env "GarIA.pt" w' =
    (Ok {| weights := "models/GarIA.pt"; device := "cpu"; task := Some "detect" |}, w') /\
  yolo_loads (trace w') = ["models/GarIA.pt"].
Proof.
  split; [|reflexivity].
  apply (load_model_idempotent stub_env "GarIA.pt" fresh). reflexivity.
Defined.

(** ** detect_objects_batch *)

Lemma get_model_info_pure (w : World) :
  exists info, get_model_info w = (Ok info, w).
Proof.
  unfold get_model_info. unfold_M.
  destruct (model (model_loader w)); eauto.
Qed.

Lemma batch_loop_cons (env : Env) (image_source : ImageSource) (rest : list ImageSource)
    (custom_config : option dict) (results : list DetectionResult.t) (w : World) :
  batch_loop env (image_source :: rest) custom_config results w =
    batch_loop env rest custom_config
      (results ++ [fst (slot env image_source custom_config w)])
      (snd (slot env image_source custom_config w)).
Proof.
  cbn [batch_loop]. unfold slot, failed_result.
  unfold bind at 1. unfold try_except. unfold bind at 1.
  destruct (detect_objects env image_source custom_config w) as [[r|e] w1].
  - reflexivity.
  - unfold bind at 1. unfold bind at 1.
    destruct (get_model_info_pure w1) as [info Hinfo]. rewrite Hinfo.
    reflexivity.
Qed.

Lemma batch_loop_spec (env : Env) (custom_config : option dict)
    (image_sources : list ImageSource) :
  forall (results : list DetectionResult.t) (w : World),
  exists (new : list DetectionResult.t) (w' : World),
    batch_loop env image_sources custom_config results w = (Ok (results ++ new), w') /\
    length new = length image_sources /\
    forall (i : nat) (image_source : ImageSource),
      image_sources !! i = Some image_source ->
      new !! i =
        Some (fst (slot env image_source custom_config
                     (snd (batch_loop env (take i image_sources) custom_config results w)))).
Proof.
  induction image_sources as [|s rest IH]; intros results w.
  - exists [], w. rewrite app_nil_r. split; [reflexivity|].
    split; [reflexivity|]. intros i src Hi. now rewrite lookup_nil in Hi.
  - rewrite batch_loop_cons.
    destruct (IH (results ++ [fst (slot env s custom_config w)])
                 (snd (slot env s custom_config w))) as (new & w' & Hrun & Hlen & Hslots).
    exists (fst (slot env s custom_config w) :: new), w'.
    split; [|split].
    + rewrite Hrun. now rewrite <- app_assoc.
    + cbn. now rewrite Hlen.
    + intros [|i] src Hi.
      * cbn in Hi. injection Hi as <-. reflexivity.
      * cbn in Hi. cbn [take]. rewrite batch_loop_cons. now apply Hslots.
Qed.

(** C6: [detect_objects_batch] never raises and returns one
    [DetectionResult] per image source, in input order.  Slot [i] is
    what [detect_objects] returns for image [i] in the world the first
    [i] images left behind; when that call raises [e], slot [i] has no
    detections, [image_info = {"error": str(e)}], [processing_time = 0.0]
    and the [get_model_info()] of that moment, and the loop goes on with
    the next image. *)
Theorem detect_objects_batch_slots
    (env : Env) (image_sources : list ImageSource) (custom_config : option dict)
    (w : World) :
  exists (results : list DetectionResult.t) (w' : World),
    detect_objects_batch env image_sources custom_config w = (Ok results, w') /\
    length results = length image_sources /\
    forall (i : nat) (image_source : ImageSource),
      image_sources !! i = Some image_source ->
      let wi := snd (detect_objects_batch env (take i image_sources) custom_config w) in
      match detect_objects env image_source custom_config wi with
      | (Ok result, _) => results !! i = Some result
      | (Raise e, we) =>
          exists failed,
            results !! i = Some failed /\
            DetectionResult.detections failed = [] /\
            DetectionResult.image_info failed = {[ "error" := VStr (str e) ]} /\
            DetectionResult.processing_time failed = 0%Q /\
            get_model_info we = (Ok (DetectionResult.model_info failed), we)
      end.
Proof.
  unfold detect_objects_batch.
  destruct (batch_loop_spec env custom_config image_sources [] w)
    as (new & w' & Hrun & Hlen & Hslots).
  exists new, w'. split; [exact Hrun|]. split; [exact Hlen|].
  intros i src Hi. specialize (Hslots i src Hi). cbv zeta.
  unfold slot in Hslots.
  destruct (detect_objects env src custom_config _) as [[r|e] we].
  - exact Hslots.
  - destruct (get_model_info_pure we) as [info Hinfo].
    rewrite Hinfo in Hslots. rewrite Hinfo.
    eexists. split; [exact Hslots|]. repeat split; reflexivity.
Qed.

(** The specification's batch example on the stub engine: of three
    images the second cannot be decoded; the three slots hold 2, 0 and 2
    detections and only the second has an ["error"] entry. *)
Example detect_objects_batch_three :
  exists r1 r2 r3 w',
    detect_objects_batch stub_env
      [SrcStr "a.jpg"; SrcStr "broken.jpg"; SrcStr "c.jpg"] (Some ∅) fresh
      = (Ok [r1; r2; r3], w') /\
    length (DetectionResult.detections r1) = 2%nat /\
    DetectionResult.detections r2 = [] /\
    length (DetectionResult.detections r3) = 2%nat /\
    DetectionResult.image_info r1 !! "error" = None /\
    DetectionResult.image_info r2 !! "error" = Some (VStr "cannot identify image file") /\
    DetectionResult.image_info r3 !! "error" = None.
Proof. vm_compute. do 4 eexists. repeat split; reflexivity. Qed.

(** ** The calls detect_objects is made of *)

Lemma logged_nil (w : World) : logged [] w = w.
Proof. now destruct w. Qed.

Lemma model_calls_app (tr1 tr2 : list event) :
  model_calls (tr1 ++ tr2) = model_calls tr2 ++ model_calls tr1.
Proof.
  induction tr1 as [|e tr1 IH]; cbn.
  - now rewrite app_nil_r.
  - destruct e; rewrite ?IH, ?app_assoc; reflexivity.
Qed.

Lemma get_image_info_frame (env : Env) (image_source : ImageSource) (w : World) :
  exists info new,
    _get_image_info env image_source w = (Ok info, logged new w) /\
    model_calls new = [].
Proof.
  unfold _get_image_info, read_local. unfold_M.
  destruct image_source as [path|img|shape dtype|].
  - destruct (Image_open env (trace w) path) as [img|e]; cbn;
      eexists _, [EvImageOpen path]; split; reflexivity.
  - eexists _, []. rewrite logged_nil. split; reflexivity.
  - eexists _, []. rewrite logged_nil. split; reflexivity.
  - eexists _, []. rewrite logged_nil. split; reflexivity.
Qed.

Lemma predict_unfold (env : Env) (source : ImageSource)
    (conf iou max_det classes : pyval) (w : World) :
  predict env source conf iou max_det classes w =
    match model (model_loader w) with
    | None =>
        (Raise (ValueError "Modelo não carregado. Chame load_model() primeiro."), w)
    | Some m =>
        (model_call env (trace w) m source conf iou max_det classes,
         logged [EvModelCall m source conf iou max_det classes] w)
    end.
Proof.
  unfold predict. unfold_M. cbn.
  destruct (model (model_loader w)) as [m|]; [|reflexivity].
  destruct (model_call env _ _ _ _ _ _ _); reflexivity.
Qed.

(** [load_model] makes no inference call and leaves
    [self.model_config] alone. *)
Lemma load_model_frame (env : Env) (model_name : string) (w : World) :
  exists new l,
    snd (load_model env model_name w) =
      {| model_loader := l; model_config := model_config w; trace := new ++ trace w |} /\
    model_calls new = [].
Proof.
  destruct (model (model_loader w)) as [m0|] eqn:Hm.
  - destruct (decide (model_path (model_loader w) = Some model_name)) as [Hp|Hp].
    + rewrite (load_model_reuse env model_name w m0 Hm Hp).
      exists [], (model_loader w). now destruct w.
    + rewrite load_model_reload by auto. cbn.
      destruct (YOLO_new env _ _); eexists [_; _], _; split; reflexivity.
  - rewrite load_model_reload by auto. cbn.
    destruct (YOLO_new env _ _); eexists [_; _], _; split; reflexivity.
Qed.

(** [initialize_model] with a valid configuration stores it, whether or
    not the model then loads. *)
Lemma initialize_model_valid (env : Env) (cfg : ModelConfiguration.t) (w : World) :
  ModelConfiguration.is_valid cfg = Ok true ->
  exists new l,
    snd (initialize_model env cfg w) =
      {| model_loader := l; model_config := Some cfg; trace := new ++ trace w |} /\
    model_calls new = [].
Proof.
  intros Hv. rewrite initialize_model_unfold, Hv.
  destruct (load_model_frame env (ModelConfiguration.model_name cfg) (validated cfg w))
    as (new & l & Hw & Hcalls).
  exists (new ++ [EvIsValid cfg]), l.
  destruct (load_model env _ _) as [[m|e] w1]; cbn in *; subst w1;
    rewrite <- app_assoc; split; try reflexivity;
    rewrite model_calls_app, Hcalls; reflexivity.
Qed.

(** [initialize_model] with a configuration that does not pass
    [is_valid()] changes nothing in the service object. *)
Lemma initialize_model_invalid (env : Env) (cfg : ModelConfiguration.t) (w : World) :
  ModelConfiguration.is_valid cfg <> Ok true ->
  initialize_model env cfg w = (Ok false, logged [EvIsValid cfg] w).
Proof.
  intros Hv. rewrite initialize_model_unfold.
  destruct (ModelConfiguration.is_valid cfg) as [[|]|e]; [congruence| |]; reflexivity.
Qed.

(** The merge is right-biased: a key of the caller's dictionary keeps
    the caller's value, any other key has the value of the stored
    configuration. *)
Lemma merge_configs_lookup (custom_config : dict) (c : ModelConfiguration.t)
    (w : World) (k : string) :
  model_config w = Some c ->
  exists config,
    _merge_configs custom_config w = (Ok config, w) /\
    config !! k =
      match custom_config !! k with
      | Some v => Some v
      | None =>
          (<["confidence" := ModelConfiguration.confidence_threshold c]>
          (<["iou_threshold" := ModelConfiguration.iou_threshold c]>
          (<["max_detections" := ModelConfiguration.max_detections c]> ∅)) : dict) !! k
      end.
Proof.
  intros Hc. unfold _merge_configs. unfold_M. rewrite Hc.
  eexists. split; [reflexivity|].
  rewrite lookup_union. destruct (custom_config !! k) as [v|].
  - now destruct (_ !! k).
  - now destruct (_ !! k).
Qed.

(** ** detect_objects, step by step *)

Lemma initialize_model_returns (env : Env) (cfg : ModelConfiguration.t) (w : World) :
  exists b : bool,
    initialize_model env cfg w = (Ok b, snd (initialize_model env cfg w)).
Proof.
  rewrite initialize_model_unfold.
  destruct (ModelConfiguration.is_valid cfg) as [[|]|e]; try (eexists; reflexivity).
  destruct (load_model env _ _) as [[m|e] w1]; eexists; reflexivity.
Qed.

Lemma dict_index_merged (custom_config config : dict) (k : string) (v : pyval) :
  config !! k = match custom_config !! k with
                | Some v' => Some v'
                | None => Some v
                end ->
  dict_index config k = Ok (dict_get custom_config k v).
Proof.
  intros H. unfold dict_index, dict_get. rewrite H.
  now destruct (custom_config !! k).
Qed.

Lemma detect_objects_outcome (env : Env) (source : ImageSource) (custom_config : dict)
    (w : World) (res : result DetectionResult.t) (w' : World) :
  detect_objects env source (Some custom_config) w = (res, w') ->
  outcome env source custom_config
    (snd (initialize_model env (request_config custom_config) w)) res w'.
Proof.
  unfold detect_objects.
  unfold bind at 1. unfold ret at 1. unfold bind at 1.
  destruct (initialize_model_returns env (request_config custom_config) w) as [b Hinit].
  rewrite Hinit. set (w1 := snd (initialize_model env (request_config custom_config) w)).
  clearbody w1. clear Hinit. cbn [snd].
  unfold bind at 1. unfold get_model_config at 1.
  destruct (model_config w1) as [c|] eqn:Hc;
    [|intros [= <- <-]; now constructor].
  unfold bind at 1. unfold ask at 1. unfold try_except at 1.
  unfold bind at 1.
  set (w2 := {| model_loader := model_loader w1; model_config := model_config w1;
                trace := EvTime :: trace w1 |}).
  assert (Hc2 : model_config w2 = Some c) by exact Hc.
  destruct (merge_configs_lookup custom_config c w2 "confidence" Hc2) as (config & Hm & Hk1).
  destruct (merge_configs_lookup custom_config c w2 "iou_threshold" Hc2) as (config2 & Hm2 & Hk2).
  destruct (merge_configs_lookup custom_config c w2 "max_detections" Hc2) as (config3 & Hm3 & Hk3).
  destruct (merge_configs_lookup custom_config c w2 "class_ids" Hc2) as (config4 & Hm4 & Hk4).
  rewrite Hm in Hm2, Hm3, Hm4. injection Hm2 as <-. injection Hm3 as <-. injection Hm4 as <-.
  rewrite Hm.
  unfold bind at 1. unfold lift at 1.
  rewrite (dict_index_merged custom_config config "confidence" _ Hk1).
  unfold bind at 1. unfold lift at 1.
  rewrite (dict_index_merged custom_config config "iou_threshold" _ Hk2).
  unfold bind at 1. unfold lift at 1.
  rewrite (dict_index_merged custom_config config "max_detections" _ Hk3).
  assert (Hids : dict_get config "class_ids" VNone = dict_get custom_config "class_ids" VNone).
  { unfold dict_get. rewrite Hk4. now destruct (custom_config !! "class_ids"). }
  rewrite Hids. clear Hm Hk1 Hk2 Hk3 Hk4 Hids config.
  unfold bind at 1. rewrite predict_unfold.
  change (model_loader w2) with (model_loader w1).
  change (trace w2) with (EvTime :: trace w1).
  destruct (model (model_loader w1)) as [m|] eqn:Hmodel;
    [|intros [= <- <-]; now apply (not_loaded _ _ _ _ c)].
  destruct (model_call env (EvTime :: trace w1) m source _ _ _ _) as [raw|e] eqn:Hcall;
    [|intros [= <- <-];
      change (outcome env source custom_config w1 (Raise e)
                (logged [call_of c custom_config m source; EvTime] w1));
      now apply (inference_failed _ _ _ _ c m e)].
  unfold bind at 1. unfold get_model_config at 1.
  change (model_config (logged _ w2)) with (model_config w1). rewrite Hc.
  unfold bind at 1.
  assert (Hret : forall w0,
            match ModelConfiguration.target_classes c with
            | Some tc =>
                ret (List.filter (fun d => str_in (Detection.class_name d) tc)
                       (_convert_to_domain_entities raw))
            | None => ret (_convert_to_domain_entities raw)
            end w0 = (Ok (retained c (_convert_to_domain_entities raw)), w0)).
  { intros w0. unfold retained. now destruct (ModelConfiguration.target_classes c). }
  rewrite Hret. clear Hret.
  unfold bind at 1. unfold ask at 1. unfold bind at 1.
  match goal with
  | |- context [_get_image_info env source ?w0] =>
      destruct (get_image_info_frame env source w0) as (info & new & Hinfo & Hnew);
      rewrite Hinfo
  end.
  unfold bind at 1.
  match goal with
  | |- context [get_model_info ?w0] =>
      destruct (get_model_info_pure w0) as (minfo & Hminfo); rewrite Hminfo
  end.
  unfold bind at 1. unfold ask at 1. unfold ret at 1.
  intros [= <- <-].
  match goal with
  | |- outcome _ _ _ _ _ ?wf =>
      assert (Hw : wf = logged ((EvNow :: new ++ [EvTime]) ++
                                [call_of c custom_config m source; EvTime]) w1)
  end.
  { unfold logged, call_of, w2. cbn. f_equal. now rewrite <- !app_assoc. }
  rewrite Hw. apply (detected _ _ _ _ c m raw); auto.
  cbn. now rewrite model_calls_app, Hnew.
Qed.

(** ** detect_objects without a configuration *)

Lemma initialize_model_trace (env : Env) (cfg : ModelConfiguration.t) (w : World) :
  exists new,
    trace (snd (initialize_model env cfg w)) = new ++ EvIsValid cfg :: trace w.
Proof.
  rewrite initialize_model_unfold.
  destruct (ModelConfiguration.is_valid cfg) as [[|]|e];
    try (exists []; reflexivity).
  destruct (load_model_frame env (ModelConfiguration.model_name cfg) (validated cfg w))
    as (new & l & Hw & _).
  exists new. destruct (load_model env _ _) as [[m|e] w1]; cbn in *; now subst w1.
Qed.

(** With a dictionary, the first thing [detect_objects] does to the
    world is to validate the configuration it built. *)
Lemma detect_objects_validates_first
    (env : Env) (image_source : ImageSource) (custom_config : dict) (w : World) :
  exists new,
    trace (snd (detect_objects env image_source (Some custom_config) w)) =
      new ++ EvIsValid (request_config custom_config) :: trace w.
Proof.
  destruct (detect_objects env image_source (Some custom_config) w) as [res w'] eqn:Hrun.
  apply detect_objects_outcome in Hrun.
  destruct (initialize_model_trace env (request_config custom_config) w) as [new1 Hnew1].
  remember (snd (initialize_model env (request_config custom_config) w)) as w1 eqn:Hw1.
  clear Hw1.
  inversion Hrun; subst; unfold logged; cbn [snd trace]; rewrite Hnew1;
    eexists; first [reflexivity | rewrite app_assoc; reflexivity].
Qed.

(** C9: with [custom_config = None], [detect_objects] raises an
    [AttributeError] while it builds the request's configuration: the
    service object and the trace are as before the call, so no
    configuration was validated, no model was loaded and no inference
    was called.  With a dictionary in place of [None] the call gets
    past that step: the validation of the built configuration is then
    the first event it adds. *)
Theorem detect_objects_None_raises (env : Env) (image_source : ImageSource) (w : World) :
  detect_objects env image_source None w =
    (Raise (AttributeError "'NoneType' object has no attribute 'get'"), w) /\
  new_events w (snd (detect_objects env image_source None w)) = [] /\
  forall custom_config : dict,
    exists new,
      trace (snd (detect_objects env image_source (Some custom_config) w)) =
        new ++ EvIsValid (request_config custom_config) :: trace w.
Proof.
  split; [reflexivity|]. split.
  - unfold new_events.
    replace (snd (detect_objects env image_source None w)) with w by reflexivity.
    now rewrite Nat.sub_diag.
  - intros custom_config. apply detect_objects_validates_first.
Qed.

Lemma dict_get_idem (d : dict) (k : string) (v : pyval) :
  dict_get d k (dict_get d k v) = dict_get d k v.
Proof. unfold dict_get. now destruct (d !! k). Qed.

Lemma get_statistics_total_detections (r : DetectionResult.t) :
  exists stats,
    DetectionResult.get_statistics r = Ok stats /\
    stats !! "total_detections" =
      Some (VInt (Z.of_nat (length (DetectionResult.detections r)))).
Proof.
  destruct (DetectionResult.detections r) as [|d ds] eqn:E.
  - unfold DetectionResult.get_statistics. rewrite E. eexists. split; reflexivity.
  - destruct (get_statistics_nonempty_ok r) as (avg & mx & mn & Hs); [congruence|].
    rewrite Hs, E. eexists. split; reflexivity.
Qed.

(** ** The configuration a request runs with *)

(** C2, as the code has it: when the configuration built from the
    caller's dictionary is valid, [detect_objects] stores it in place
    of the active configuration and then calls the engine at most once,
    with the caller's value for every field the dictionary gives and
    with 0.25, 0.45 and 1000 for the fields it does not give, whatever
    the configuration that was active before the call.  The call is made
    exactly when a model is loaded. *)
Theorem detect_objects_inference_arguments
    (env : Env) (image_source : ImageSource) (custom_config : dict)
    (w w' : World) (res : result DetectionResult.t) :
  ModelConfiguration.is_valid (request_config custom_config) = Ok true ->
  detect_objects env image_source (Some custom_config) w = (res, w') ->
  model_config w' = Some (request_config custom_config) /\
  exists new,
    trace w' = new ++ trace w /\
    model_calls new =
      match model (model_loader w') with
      | Some _ =>
          [(image_source,
            dict_get custom_config "confidence" (VFloat 0.25),
            dict_get custom_config "iou_threshold" (VFloat 0.45),
            dict_get custom_config "max_detections" (VInt 1000),
            dict_get custom_config "class_ids" VNone)]
      | None => []
      end.
Proof.
  intros Hv Hrun. apply detect_objects_outcome in Hrun.
  destruct (initialize_model_valid env (request_config custom_config) w Hv)
    as (new1 & l & Hw1 & Hcalls1).
  rewrite Hw1 in Hrun. clear Hw1.
  inversion Hrun as [Hc|c Hc Hm|c m e Hc Hm Hcall|c m raw r new Hc Hm Hcall Hdet Hnew];
    subst; cbn in *; try discriminate.
  - injection Hc as <-. split; [reflexivity|].
    exists (EvTime :: new1). rewrite Hm. cbn. auto.
  - injection Hc as <-. split; [reflexivity|].
    eexists (_ :: _ :: new1). rewrite Hm. split; [reflexivity|].
    cbn. rewrite Hcalls1. cbn. now rewrite !dict_get_idem.
  - injection Hc as <-. split; [reflexivity|].
    exists ((new ++ [call_of (request_config custom_config) custom_config m image_source;
                     EvTime]) ++ new1).
    rewrite Hm. split; [now rewrite <- !app_assoc|].
    rewrite !model_calls_app, Hnew, Hcalls1. cbn. now rewrite !dict_get_idem.
Qed.

(** C2 on the stub engine: a request that only gives [iou_threshold]
    runs with confidence 0.25, although the active configuration has
    0.5. *)
Lemma detect_objects_inference_arguments_witness :
  let custom_config : dict := {[ "iou_threshold" := VFloat 0.3 ]} in
  let w' := snd (detect_objects stub_env (SrcStr "a.jpg") (Some custom_config) after_half) in
  model_config w' = Some (request_config custom_config) /\
  exists new,
    trace w' = new ++ trace after_half /\
    model_calls new = [(SrcStr "a.jpg", VFloat 0.25, VFloat 0.3, VInt 1000, VNone)].
Proof.
  cbv zeta.
  pose proof (detect_objects_inference_arguments stub_env (SrcStr "a.jpg")
                {[ "iou_threshold" := VFloat 0.3 ]} after_half _ _
                eq_refl (surjective_pairing _)) as [Hc (new & Ht & Hm)].
  split; [exact Hc|]. exists new. split; [exact Ht|].
  rewrite Hm. vm_compute. reflexivity.
Defined.

(** C2 as stated fails: the active configuration has confidence 0.5,
    the override does not give [confidence], and the engine is called
    with 0.25, not with the active configuration's 0.5. *)
Lemma absent_field_not_inherited :
  let custom_config : dict := {[ "iou_threshold" := VFloat 0.3 ]} in
  let w' := snd (detect_objects stub_env (SrcStr "a.jpg") (Some custom_config) after_half) in
  ModelConfiguration.confidence_threshold <$> model_config after_half = Some (VFloat 0.5) /\
  custom_config !! "confidence" = None /\
  model_calls (new_events after_half w') =
    [(SrcStr "a.jpg", VFloat 0.25, VFloat 0.3, VInt 1000, VNone)] /\
  model_calls (new_events after_half w') <>
    [(SrcStr "a.jpg", VFloat 0.5, VFloat 0.3, VInt 1000, VNone)].
Proof.
  cbv zeta. split; [reflexivity|]. split; [reflexivity|].
  assert (H : model_calls (new_events after_half
                (snd (detect_objects stub_env (SrcStr "a.jpg")
                        (Some {[ "iou_threshold" := VFloat 0.3 ]}) after_half))) =
              [(SrcStr "a.jpg", VFloat 0.25, VFloat 0.3, VInt 1000, VNone)])
    by (vm_compute; reflexivity).
  split; [exact H|]. rewrite H. intros [=].
Qed.

(** ** Invalid configurations *)

(** On a service without an active configuration, a request whose
    configuration does not pass [is_valid()] is refused with a
    [ValueError] before any load or inference. *)
Lemma detect_objects_invalid_fresh
    (env : Env) (image_source : ImageSource) (custom_config : dict) (w : World) :
  ModelConfiguration.is_valid (request_config custom_config) <> Ok true ->
  model_config w = None ->
  detect_objects env image_source (Some custom_config) w =
    (Raise (ValueError "Modelo não inicializado. Chame initialize_model() primeiro."),
     logged [EvIsValid (request_config custom_config)] w).
Proof.
  intros Hv Hc.
  destruct (detect_objects env image_source (Some custom_config) w) as [res w'] eqn:Hrun.
  apply detect_objects_outcome in Hrun.
  rewrite (initialize_model_invalid env _ w Hv) in Hrun. cbn [snd] in Hrun.
  inversion Hrun; subst; cbn in *; congruence.
Qed.

(** On a service with an active configuration and a loaded model, the
    same request is not refused: the engine is called with the caller's
    values. *)
Lemma detect_objects_invalid_active
    (env : Env) (image_source : ImageSource) (custom_config : dict) (w w' : World)
    (res : result DetectionResult.t) (c : ModelConfiguration.t) (m : YOLO) :
  ModelConfiguration.is_valid (request_config custom_config) <> Ok true ->
  model_config w = Some c ->
  model (model_loader w) = Some m ->
  detect_objects env image_source (Some custom_config) w = (res, w') ->
  exists new,
    trace w' = new ++ trace w /\
    model_calls new =
      [(image_source,
        dict_get custom_config "confidence" (ModelConfiguration.confidence_threshold c),
        dict_get custom_config "iou_threshold" (ModelConfiguration.iou_threshold c),
        dict_get custom_config "max_detections" (ModelConfiguration.max_detections c),
        dict_get custom_config "class_ids" VNone)].
Proof.
  intros Hv Hc Hm Hrun. apply detect_objects_outcome in Hrun.
  rewrite (initialize_model_invalid env _ w Hv) in Hrun. cbn [snd] in Hrun.
  inversion Hrun as [Hc'|c' Hc' Hm'|c' m' e Hc' Hm' Hcall
                    |c' m' raw r new Hc' Hm' Hcall Hdet Hnew];
    subst; cbn in *; try congruence.
  - assert (c' = c) by congruence. subst c'.
    eexists [_; _; _]. split; reflexivity.
  - assert (c' = c) by congruence. subst c'.
    eexists (new ++ [_; _; _]). split; [now rewrite <- !app_assoc|].
    rewrite model_calls_app, Hnew. reflexivity.
Qed.

(** C1 on the stub engine: the service holds the default configuration
    from an earlier request; the override [{"confidence": 1.5}] gives a
    configuration that is not valid, yet [detect_objects] calls the
    engine with confidence 1.5 and returns a [DetectionResult] with two
    detections. *)
Theorem invalid_override_reaches_inference :
  let custom_config : dict := {[ "confidence" := VFloat 1.5 ]} in
  ModelConfiguration.is_valid (request_config custom_config) = Ok false /\
  exists r w',
    detect_objects stub_env (SrcStr "a.jpg") (Some custom_config) after_default
      = (Ok r, w') /\
    model_calls (new_events after_default w') =
      [(SrcStr "a.jpg", VFloat 1.5, VFloat 0.45, VInt 1000, VNone)] /\
    length (DetectionResult.detections r) = 2%nat.
Proof.
  cbv zeta. split; [reflexivity|]. vm_compute.
  eexists _, _. split; [reflexivity|]. split; reflexivity.
Qed.

(** ** The class filter *)

(** C7 does not hold of the code.  The class filter (lines 75 to 79)
    reads [self.model_config], which lines 47 to 55 of the same call
    have just replaced by the request's own configuration, built without
    [target_classes].  So for every request whose configuration passes
    [is_valid()], whatever configuration was active before and whatever
    allow-list it held: a returned [DetectionResult] holds every
    detection the engine reported, converted, in the engine's order, and
    the configuration left in the service is the request's, without an
    allow-list. *)
Theorem valid_request_ignores_allow_list
    (env : Env) (image_source : ImageSource) (custom_config : dict)
    (w w' : World) (r : DetectionResult.t) :
  ModelConfiguration.is_valid (request_config custom_config) = Ok true ->
  detect_objects env image_source (Some custom_config) w = (Ok r, w') ->
  let w1 := snd (initialize_model env (request_config custom_config) w) in
  exists m raw,
    model (model_loader w1) = Some m /\
    model_call env (EvTime :: trace w1) m image_source
      (dict_get custom_config "confidence" (VFloat 0.25))
      (dict_get custom_config "iou_threshold" (VFloat 0.45))
      (dict_get custom_config "max_detections" (VInt 1000))
      (dict_get custom_config "class_ids" VNone) = Ok raw /\
    DetectionResult.detections r = _convert_to_domain_entities raw /\
    model_config w' = Some (request_config custom_config) /\
    ModelConfiguration.target_classes (request_config custom_config) = None.
Proof.
  intros Hv Hrun w1. apply detect_objects_outcome in Hrun. fold w1 in Hrun.
  destruct (initialize_model_valid env _ w Hv) as (new0 & l & Hw1 & _).
  fold w1 in Hw1.
  assert (Hc1 : model_config w1 = Some (request_config custom_config))
    by (rewrite Hw1; reflexivity).
  inversion Hrun as [| | |c m raw r' new Hc Hm Hcall Hdet Hnew]; subst.
  rewrite Hc1 in Hc. injection Hc as <-.
  cbn [request_config ModelConfiguration.confidence_threshold
       ModelConfiguration.iou_threshold ModelConfiguration.max_detections] in Hcall.
  rewrite !dict_get_idem in Hcall.
  exists m, raw. split; [exact Hm|]. split; [exact Hcall|].
  split; [exact Hdet|]. split; [exact Hc1|reflexivity].
Qed.

(** C7 on the stub engine: the service was initialised with the
    allow-list [["bottle"]]; a request without overrides returns the
    bottle and the bag, and the allow-list is gone from the service. *)
Lemma valid_request_ignores_allow_list_witness :
  (ModelConfiguration.target_classes <$> model_config with_allow_list
     = Some (Some ["bottle"])) /\
  exists r w',
    detect_objects stub_env (SrcStr "a.jpg") (Some ∅) with_allow_list = (Ok r, w') /\
    Detection.class_name <$> DetectionResult.detections r = ["bottle"; "bag"] /\
    ModelConfiguration.target_classes <$> model_config w' = Some None.
Proof.
  split; [reflexivity|].
  destruct (detect_objects stub_env (SrcStr "a.jpg") (Some ∅) with_allow_list)
    as [[r|e] w'] eqn:Hrun; [|vm_compute in Hrun; discriminate].
  exists r, w'. split; [reflexivity|].
  assert (Hv : ModelConfiguration.is_valid (request_config ∅) = Ok true)
    by reflexivity.
  pose proof (valid_request_ignores_allow_list _ _ _ _ _ _ Hv Hrun)
    as (m & raw & Hm & Hcall & Hdet & Hc & Htc).
  vm_compute in Hm. injection Hm as <-.
  vm_compute in Hcall. injection Hcall as <-.
  split; [rewrite Hdet; reflexivity|].
  rewrite Hc. reflexivity.
Defined.

(** ** The specification's end-to-end example *)

(** A request with [confidence = 0.2] on the stub engine passes 0.2 to
    the engine and returns what the engine found, the bottle and the
    bag, in the engine's order. *)
Example end_to_end_run :
  exists r w',
    detect_objects stub_env (SrcStr "a.jpg") (Some {[ "confidence" := VFloat 0.2 ]}) fresh
      = (Ok r, w') /\
    DetectionResult.detections r = _convert_to_domain_entities [bottle; bag] /\
    model_calls (trace w') = [(SrcStr "a.jpg", VFloat 0.2, VFloat 0.45, VInt 1000, VNone)].
Proof.
  vm_compute. do 2 eexists. split; [reflexivity|]. split; reflexivity.
Qed.

(** The statistics of such a result: two detections of two classes, an
    average confidence of 0.5, a maximum of 0.9 and a minimum of 0.1. *)
Example end_to_end_statistics (r : DetectionResult.t) :
  DetectionResult.detections r = _convert_to_domain_entities [bottle; bag] ->
  DetectionResult.unique_classes r ≡ₚ ["bottle"; "bag"] /\
  exists stats avg,
    DetectionResult.get_statistics r = Ok stats /\
    stats !! "total_detections" = Some (VInt 2) /\
    stats !! "avg_confidence" = Some (VFloat avg) /\ (avg == 0.5)%Q /\
    stats !! "max_confidence" = Some (VFloat 0.9) /\
    stats !! "min_confidence" = Some (VFloat 0.1).
Proof.
  intros Hd. unfold DetectionResult.get_statistics, DetectionResult.unique_classes.
  rewrite Hd. split.
  - vm_compute. first [reflexivity | apply perm_swap].
  - cbn. do 2 eexists. split; [reflexivity|]. repeat split; reflexivity.
Qed.

(** * Further properties *)

(** ** Filters and class names *)

(** X1: [filter_by_class(names)] returns exactly the stored detections
    whose class name is in [names], in the stored order; with an empty
    list of names it returns nothing. *)
Theorem filter_by_class_spec (r : DetectionResult.t) (class_names : list string) :
  Forall (fun d => Detection.class_name d ∈ class_names)
    (DetectionResult.filter_by_class r class_names) /\
  (forall d, d ∈ DetectionResult.detections r ->
     Detection.class_name d ∈ class_names ->
     d ∈ DetectionResult.filter_by_class r class_names) /\
  DetectionResult.filter_by_class r class_names `sublist_of` DetectionResult.detections r /\
  DetectionResult.filter_by_class r [] = [].
Proof.
  unfold DetectionResult.filter_by_class, str_in. repeat split.
  - apply List.Forall_forall. intros d Hd.
    apply List.filter_In in Hd as [_ Hd]. now apply bool_decide_eq_true in Hd.
  - intros d Hd Hk. apply list_elem_of_In, List.filter_In.
    split; [now apply list_elem_of_In|]. now apply bool_decide_eq_true.
  - apply filter_sublist.
  - induction (DetectionResult.detections r) as [|d ds IH]; [reflexivity|].
    cbn. rewrite bool_decide_eq_false_2; [exact IH|]. apply not_elem_of_nil.
Qed.

(** X2: raising the threshold of [filter_by_confidence] only removes
    detections: the result for the higher threshold is a subsequence of
    the result for the lower one. *)
Theorem filter_by_confidence_monotone (r : DetectionResult.t) (c1 c2 : Q) :
  (c1 <= c2)%Q ->
  DetectionResult.filter_by_confidence r c2 `sublist_of`
    DetectionResult.filter_by_confidence r c1.
Proof.
  intros Hle. unfold DetectionResult.filter_by_confidence.
  induction (DetectionResult.detections r) as [|d ds IH]; cbn; [constructor|].
  destruct (float_ge (Detection.confidence d) c2) eqn:E2.
  - assert (E1 : float_ge (Detection.confidence d) c1 = true).
    { apply float_ge_iff. apply float_ge_iff in E2. now apply Qle_trans with c2. }
    rewrite E1. now constructor.
  - destruct (float_ge (Detection.confidence d) c1); [now constructor|exact IH].
Qed.

Lemma filter_by_confidence_monotone_witness :
  let r := {| DetectionResult.detections := _convert_to_domain_entities [bottle; bag];
              DetectionResult.image_info := ∅;
              DetectionResult.processing_time := 0;
              DetectionResult.model_info := ∅;
              DetectionResult.timestamp := 0 |} in
  DetectionResult.filter_by_confidence r 0.5 `sublist_of`
    DetectionResult.filter_by_confidence r 0.05.
Proof.
  apply filter_by_confidence_monotone. vm_compute. discriminate.
Defined.

(** X3: [unique_classes] lists every class name that some stored
    detection has, each once, and nothing else; it is never longer than
    the detection list. *)
Theorem unique_classes_spec (r : DetectionResult.t) :
  NoDup (DetectionResult.unique_classes r) /\
  (forall k, k ∈ DetectionResult.unique_classes r <->
     exists d, d ∈ DetectionResult.detections r /\ Detection.class_name d = k) /\
  (length (DetectionResult.unique_classes r) <= DetectionResult.detection_count r)%nat.
Proof.
  unfold DetectionResult.unique_classes, DetectionResult.detection_count.
  assert (Hk : forall k,
    k ∈ elements (list_to_set (Detection.class_name <$> DetectionResult.detections r)
                    : gset string) <->
    exists d, d ∈ DetectionResult.detections r /\ Detection.class_name d = k).
  { intros k. rewrite elem_of_elements, elem_of_list_to_set, list_elem_of_fmap.
    split; intros (d & H1 & H2); eauto. }
  split; [apply NoDup_elements|]. split; [exact Hk|].
  rewrite <- (length_fmap Detection.class_name (DetectionResult.detections r)).
  apply submseteq_length, NoDup_submseteq; [apply NoDup_elements|].
  intros k Hin. apply Hk in Hin as (d & Hd & <-).
  apply list_elem_of_fmap. eauto.
Qed.

(** ** Statistics *)

Lemma float_gt_false_iff (a b : Q) : float_gt a b = false <-> (a <= b)%Q.
Proof.
  unfold float_gt. rewrite negb_false_iff. apply Qle_bool_iff.
Qed.

Lemma max_from_spec (l : list Q) :
  forall x,
    (x <= max_from x l)%Q /\
    Forall (fun y => (y <= max_from x l)%Q) l /\
    max_from x l ∈ x :: l.
Proof.
  induction l as [|y l IH]; intros x; cbn [max_from].
  - split; [apply Qle_refl|]. split; [constructor|]. apply list_elem_of_here.
  - destruct (IH (if float_gt y x then y else x)) as (Hx & Hall & Hin).
    destruct (float_gt y x) eqn:E.
    + apply float_gt_iff in E. split; [|split].
      * apply Qle_trans with y; [now apply Qlt_le_weak|exact Hx].
      * constructor; assumption.
      * apply list_elem_of_further. exact Hin.
    + apply float_gt_false_iff in E. split; [exact Hx|split].
      * constructor; [now apply Qle_trans with x|assumption].
      * apply elem_of_cons in Hin as [->|Hin];
          [apply list_elem_of_here|do 2 apply list_elem_of_further; exact Hin].
Qed.

Lemma min_from_spec (l : list Q) :
  forall x,
    (min_from x l <= x)%Q /\
    Forall (fun y => (min_from x l <= y)%Q) l /\
    min_from x l ∈ x :: l.
Proof.
  induction l as [|y l IH]; intros x; cbn [min_from].
  - split; [apply Qle_refl|]. split; [constructor|]. apply list_elem_of_here.
  - destruct (IH (if float_gt x y then y else x)) as (Hx & Hall & Hin).
    destruct (float_gt x y) eqn:E.
    + apply float_gt_iff in E. split; [|split].
      * apply Qle_trans with y; [exact Hx|now apply Qlt_le_weak].
      * constructor; assumption.
      * apply list_elem_of_further. exact Hin.
    + apply float_gt_false_iff in E. split; [exact Hx|split].
      * constructor; [now apply Qle_trans with x|assumption].
      * apply elem_of_cons in Hin as [->|Hin];
          [apply list_elem_of_here|do 2 apply list_elem_of_further; exact Hin].
Qed.

(** X4: on a non-empty result whose confidences are in [[0, 1]], as
    [Detection.is_valid] demands of them, [max_confidence] and
    [min_confidence] are each the confidence of some stored detection,
    every stored confidence lies between them, and both are in
    [[0, 1]].  Only comparisons are involved, so rounding plays no
    part. *)
Theorem get_statistics_bounds (r : DetectionResult.t) :
  DetectionResult.detections r <> [] ->
  (forall d, d ∈ DetectionResult.detections r ->
     (0 <= Detection.confidence d <= 1)%Q) ->
  exists stats mx mn,
    DetectionResult.get_statistics r = Ok stats /\
    stats !! "max_confidence" = Some (VFloat mx) /\
    stats !! "min_confidence" = Some (VFloat mn) /\
    (forall d, d ∈ DetectionResult.detections r ->
       (mn <= Detection.confidence d <= mx)%Q) /\
    (exists d, d ∈ DetectionResult.detections r /\ Detection.confidence d = mx) /\
    (exists d, d ∈ DetectionResult.detections r /\ Detection.confidence d = mn) /\
    (0 <= mn)%Q /\ (mx <= 1)%Q.
Proof.
  intros Hne Hrange. unfold DetectionResult.get_statistics. revert Hrange.
  destruct (DetectionResult.detections r) as [|d ds] eqn:E; [congruence|]. clear Hne.
  intros Hrange.
  set (cs := Detection.confidence <$> d :: ds).
  cbn [fmap list_fmap length div_len py_max py_min rbind] in *.
  set (x := Detection.confidence d) in *.
  set (xs := list_fmap _ _ Detection.confidence ds) in *.
  destruct (max_from_spec xs x) as (Hmx & Hmxs & Hmxin).
  destruct (min_from_spec xs x) as (Hmn & Hmns & Hmnin).
  assert (Hall : Forall (fun y => (min_from x xs <= y <= max_from x xs)%Q) (x :: xs)).
  { constructor; [split; assumption|].
    rewrite Forall_forall in *. intros y Hy. split; auto. }
  change (x :: xs) with (Detection.confidence <$> d :: ds) in Hmxin, Hmnin.
  apply list_elem_of_fmap in Hmxin as (dx & Hdx & Hinx).
  apply list_elem_of_fmap in Hmnin as (dn & Hdn & Hinn).
  do 3 eexists. split; [reflexivity|].
  split; [reflexivity|]. split; [reflexivity|].
  split; [|split; [|split; [|split]]].
  - intros d' Hd'. rewrite Forall_forall in Hall. apply Hall.
    change (x :: xs) with (Detection.confidence <$> d :: ds).
    apply list_elem_of_fmap. eauto.
  - eauto.
  - eauto.
  - destruct (Hrange dn Hinn) as [H0 _]. rewrite <- Hdn in H0. exact H0.
  - destruct (Hrange dx Hinx) as [_ H1]. rewrite <- Hdx in H1. exact H1.
Qed.

(** X4 on the result of the specification's example. *)
Lemma get_statistics_bounds_witness :
  let r := {| DetectionResult.detections := _convert_to_domain_entities [bottle; bag];
              DetectionResult.image_info := ∅;
              DetectionResult.processing_time := 0;
              DetectionResult.model_info := ∅;
              DetectionResult.timestamp := 0 |} in
  exists stats mx mn,
    DetectionResult.get_statistics r = Ok stats /\
    stats !! "max_confidence" = Some (VFloat mx) /\
    stats !! "min_confidence" = Some (VFloat mn) /\
    (0 <= mn)%Q /\ (mn <= mx)%Q /\ (mx <= 1)%Q.
Proof.
  cbv zeta.
  destruct (get_statistics_bounds
              {| DetectionResult.detections := _convert_to_domain_entities [bottle; bag];
                 DetectionResult.image_info := ∅;
                 DetectionResult.processing_time := 0;
                 DetectionResult.model_info := ∅;
                 DetectionResult.timestamp := 0 |})
    as (stats & mx & mn & Hs & Hx & Hn & Hall & (dx & Hdx & Hmx) & _ & H0 & H1).
  - discriminate.
  - intros d Hd. cbn in Hd.
    apply elem_of_cons in Hd as [->|Hd]; [split; discriminate|].
    apply elem_of_cons in Hd as [->|Hd]; [split; discriminate|].
    apply elem_of_nil in Hd. destruct Hd.
  - exists stats, mx, mn. split; [exact Hs|]. split; [exact Hx|]. split; [exact Hn|].
    split; [exact H0|]. split; [|exact H1].
    rewrite <- Hmx. apply (Hall dx Hdx).
Defined.

(** ** Validity of a configuration *)

(** X5: [ModelConfiguration.is_valid()] is true exactly when the two
    thresholds are numbers in [[0, 1]] and [max_detections] is a positive
    number.  It raises a [TypeError] when [confidence_threshold] is not a
    number; when [confidence_threshold] is a number outside [[0, 1]] the
    answer is [False] whatever the other two fields hold, since they are
    not looked at. *)
Theorem ModelConfiguration_is_valid_spec (cfg : ModelConfiguration.t) :
  (ModelConfiguration.is_valid cfg = Ok true <->
     exists a b m,
       as_number (ModelConfiguration.confidence_threshold cfg) = Some a /\
       as_number (ModelConfiguration.iou_threshold cfg) = Some b /\
       as_number (ModelConfiguration.max_detections cfg) = Some m /\
       (0 <= a <= 1)%Q /\ (0 <= b <= 1)%Q /\ (0 < m)%Q) /\
  (as_number (ModelConfiguration.confidence_threshold cfg) = None ->
     exists msg, ModelConfiguration.is_valid cfg = Raise (TypeError msg)) /\
  (forall a,
     as_number (ModelConfiguration.confidence_threshold cfg) = Some a ->
     ~ (0 <= a <= 1)%Q ->
     ModelConfiguration.is_valid cfg = Ok false).
Proof.
  unfold ModelConfiguration.is_valid, num_le, le_num, gt_num.
  destruct (as_number (ModelConfiguration.confidence_threshold cfg)) as [a|]; cbn.
  2: { split; [|split; [eauto|discriminate]].
       split; [discriminate|]. intros (a & b & m & [=] & _). }
  destruct (Qle_bool 0 a) eqn:Ea0; cbn.
  2: { split; [|split; [discriminate|]].
       - split; [discriminate|]. intros (a' & b & m & [= <-] & _ & _ & [Ha _] & _).
         apply Qle_bool_iff in Ha. congruence.
       - reflexivity. }
  destruct (Qle_bool a 1) eqn:Ea1; cbn.
  2: { split; [|split; [discriminate|]].
       - split; [discriminate|]. intros (a' & b & m & [= <-] & _ & _ & [_ Ha] & _).
         apply Qle_bool_iff in Ha. congruence.
       - reflexivity. }
  apply Qle_bool_iff in Ea0, Ea1.
  split; [|split; [discriminate|intros a' [= <-] Hn; tauto]].
  destruct (as_number (ModelConfiguration.iou_threshold cfg)) as [b|]; cbn.
  2: { split; [discriminate|]. intros (a' & b & m & _ & [=] & _). }
  destruct (Qle_bool 0 b) eqn:Eb0; cbn.
  2: { split; [discriminate|]. intros (a' & b' & m & _ & [= <-] & _ & _ & [Hb _] & _).
       apply Qle_bool_iff in Hb. congruence. }
  destruct (Qle_bool b 1) eqn:Eb1; cbn.
  2: { split; [discriminate|]. intros (a' & b' & m & _ & [= <-] & _ & _ & [_ Hb] & _).
       apply Qle_bool_iff in Hb. congruence. }
  apply Qle_bool_iff in Eb0, Eb1.
  destruct (as_number (ModelConfiguration.max_detections cfg)) as [m|]; cbn.
  2: { split; [discriminate|]. intros (a' & b' & m & _ & _ & [=] & _). }
  fold (float_gt m 0). destruct (float_gt m 0) eqn:Em.
  - apply float_gt_iff in Em. split; [|reflexivity].
    intros _. exists a, b, m. auto 10.
  - apply float_gt_false_iff in Em. split; [discriminate|].
    intros (a' & b' & m' & _ & _ & [= <-] & _ & _ & Hm).
    exfalso. revert Em. now apply Qlt_not_le.
Qed.


(** ** Unloading and reloading *)

Lemma unload_model_unfold (w : World) :
  unload_model w =
    (Ok tt,
     match model (model_loader w) with
     | Some _ => {| model_loader := {| model := None; model_path := None |};
                    model_config := model_config w;
                    trace := trace w |}
     | None => w
     end).
Proof.
  unfold unload_model. unfold_M. now destruct (model (model_loader w)).
Qed.

Lemma unload_model_clears (w : World) :
  model (model_loader (snd (unload_model w))) = None /\
  trace (snd (unload_model w)) = trace w.
Proof.
  rewrite unload_model_unfold. cbn [snd].
  destruct (model (model_loader w)) eqn:E; auto.
Qed.

(** X7: [unload_model] never raises and leaves the loader without a
    model (and, if it had one, without a model name), the active
    configuration and the trace being as before.  After it, [predict]
    raises a [ValueError] without calling the engine,
    [get_model_info()] reports ["not_loaded"], and a second
    [unload_model] changes nothing. *)
Theorem unload_model_then_predict
    (env : Env) (w : World) (source : ImageSource) (conf iou max_det classes : pyval) :
  let w' := snd (unload_model w) in
  unload_model w = (Ok tt, w') /\
  model (model_loader w') = None /\
  (model (model_loader w) <> None -> model_path (model_loader w') = None) /\
  model_config w' = model_config w /\
  trace w' = trace w /\
  predict env source conf iou max_det classes w' =
    (Raise (ValueError "Modelo não carregado. Chame load_model() primeiro."), w') /\
  get_model_info w' = (Ok {[ "status" := VStr "not_loaded" ]}, w') /\
  unload_model w' = (Ok tt, w').
Proof.
  cbv zeta. rewrite unload_model_unfold. cbn [snd].
  set (w' := match model (model_loader w) with Some _ => _ | None => w end).
  assert (Hm : model (model_loader w') = None).
  { subst w'. now destruct (model (model_loader w)) eqn:E. }
  split; [reflexivity|]. split; [exact Hm|]. split; [|split; [|split]].
  - subst w'. destruct (model (model_loader w)); [reflexivity|congruence].
  - subst w'. now destruct (model (model_loader w)).
  - subst w'. now destruct (model (model_loader w)).
  - split; [|split].
    + rewrite predict_unfold, Hm. reflexivity.
    + unfold get_model_info. unfold_M. now rewrite Hm.
    + rewrite unload_model_unfold, Hm. reflexivity.
Qed.

(** X8: unloading drops the cache of [load_model]: a [load_model] that
    follows [unload_model] asks the file system and calls [YOLO(...)]
    again, also for the name that was loaded before: with the path under
    [models/] when [os.path.exists] says that file is there, and with
    the bare name when it says it is not; its result is what
    [YOLO(...)] answers. *)
Theorem load_model_after_unload (env : Env) (model_name : string) (w : World) :
  let w0 := snd (unload_model w) in
  let tr := EvExists (join_models model_name) :: trace w in
  let path := if os_path_exists env (trace w) (join_models model_name)
              then join_models model_name else model_name in
  fst (load_model env model_name w0) = YOLO_new env tr path /\
  trace (snd (load_model env model_name w0)) = EvYOLO path :: tr /\
  yolo_loads (new_events w (snd (load_model env model_name w0))) = [path].
Proof.
  cbv zeta.
  destruct (unload_model_clears w) as (Hm & Ht).
  rewrite load_model_reload by (left; exact Hm).
  unfold resolved_path. rewrite Ht.
  set (path := if os_path_exists env (trace w) (join_models model_name)
               then join_models model_name else model_name).
  cbv zeta.
  destruct (YOLO_new env _ path) as [m|e]; cbn [fst snd trace];
    (split; [reflexivity|]); (split; [reflexivity|]);
    unfold new_events; cbn [trace length];
    replace (S (S (length (trace w))) - length (trace w))%nat with 2%nat by lia;
    reflexivity.
Qed.

(** ** The loader's invariant *)

Lemma load_model_loader (env : Env) (model_name : string) (w : World) :
  model_loader (snd (load_model env model_name w)) = model_loader w \/
  exists m,
    model_loader (snd (load_model env model_name w)) =
      {| model := Some m; model_path := Some model_name |}.
Proof.
  destruct (model (model_loader w)) as [m0|] eqn:Hm.
  - destruct (decide (model_path (model_loader w) = Some model_name)) as [Hp|Hp].
    + rewrite (load_model_reuse env model_name w m0 Hm Hp). now left.
    + rewrite load_model_reload by auto. cbn.
      destruct (YOLO_new env _ _); cbn; eauto.
  - rewrite load_model_reload by auto. cbn.
    destruct (YOLO_new env _ _); cbn; eauto.
Qed.

Lemma initialize_model_loader (env : Env) (cfg : ModelConfiguration.t) (w : World) :
  model_loader (snd (initialize_model env cfg w)) = model_loader w \/
  exists m,
    model_loader (snd (initialize_model env cfg w)) =
      {| model := Some m; model_path := Some (ModelConfiguration.model_name cfg) |}.
Proof.
  rewrite initialize_model_unfold.
  destruct (ModelConfiguration.is_valid cfg) as [[|]|e]; try (now left).
  destruct (load_model_loader env (ModelConfiguration.model_name cfg) (validated cfg w))
    as [H|[m H]];
    destruct (load_model env _ _) as [[m'|e] w1]; cbn in *; eauto.
Qed.

Lemma detect_objects_loader (env : Env) (image_source : ImageSource)
    (custom_config : option dict) (w : World) :
  model_loader (snd (detect_objects env image_source custom_config w)) = model_loader w \/
  exists m,
    model_loader (snd (detect_objects env image_source custom_config w)) =
      {| model := Some m; model_path := Some "GarIA.pt" |}.
Proof.
  destruct custom_config as [cc|]; [|now left].
  destruct (detect_objects env image_source (Some cc) w) as [res w'] eqn:Hrun.
  apply detect_objects_outcome in Hrun.
  pose proof (initialize_model_loader env (request_config cc) w) as Hinit.
  remember (snd (initialize_model env (request_config cc) w)) as w1 eqn:Hw1.
  clear Hw1. cbn [snd].
  inversion Hrun; subst; exact Hinit.
Qed.

Lemma slot_loader (env : Env) (image_source : ImageSource)
    (custom_config : option dict) (w : World) :
  model_loader (snd (slot env image_source custom_config w)) = model_loader w \/
  exists m,
    model_loader (snd (slot env image_source custom_config w)) =
      {| model := Some m; model_path := Some "GarIA.pt" |}.
Proof.
  pose proof (detect_objects_loader env image_source custom_config w) as H.
  unfold slot.
  destruct (detect_objects env image_source custom_config w) as [[r|e] w1]; exact H.
Qed.

Lemma loader_consistent_step (l l' : YOLOModelLoader) (name : string) :
  loader_consistent l ->
  (l' = l \/ exists m, l' = {| model := Some m; model_path := Some name |}) ->
  loader_consistent l'.
Proof.
  intros Hl [->|[m ->]]; [exact Hl|]. split; discriminate.
Qed.

Lemma batch_loop_loader_consistent (env : Env) (custom_config : option dict)
    (image_sources : list ImageSource) :
  forall results w,
    loader_consistent (model_loader w) ->
    loader_consistent
      (model_loader (snd (batch_loop env image_sources custom_config results w))).
Proof.
  induction image_sources as [|s rest IH]; intros results w Hw; [exact Hw|].
  rewrite batch_loop_cons. apply IH.
  eapply loader_consistent_step; [exact Hw|apply slot_loader].
Qed.

(** X9: the loader holds a model exactly when it holds a model name.
    This is true of a new service and is kept by [load_model],
    [unload_model], [initialize_model], [detect_objects] and
    [detect_objects_batch], whatever they return; so when
    [get_model_info()] says ["loaded"], its ["model_path"] is a string,
    never [None]. *)
Theorem loader_consistent_kept (env : Env) (w : World) :
  loader_consistent (model_loader w) ->
  (forall name, loader_consistent (model_loader (snd (load_model env name w)))) /\
  loader_consistent (model_loader (snd (unload_model w))) /\
  (forall cfg, loader_consistent (model_loader (snd (initialize_model env cfg w)))) /\
  (forall source cc,
     loader_consistent (model_loader (snd (detect_objects env source cc w)))) /\
  (forall sources cc,
     loader_consistent (model_loader (snd (detect_objects_batch env sources cc w)))) /\
  (forall info,
     fst (get_model_info w) = Ok info ->
     info !! "status" = Some (VStr "loaded") ->
     exists name, info !! "model_path" = Some (VStr name)).
Proof.
  intros Hw. split; [|split; [|split; [|split; [|split]]]].
  - intros name. eapply loader_consistent_step; [exact Hw|apply load_model_loader].
  - rewrite unload_model_unfold. cbn [snd].
    destruct (model (model_loader w)); [|exact Hw]. split; reflexivity.
  - intros cfg. eapply loader_consistent_step; [exact Hw|apply initialize_model_loader].
  - intros source cc. eapply loader_consistent_step; [exact Hw|apply detect_objects_loader].
  - intros sources cc. unfold detect_objects_batch.
    apply batch_loop_loader_consistent. exact Hw.
  - intros info. unfold get_model_info. unfold_M.
    destruct (model (model_loader w)) as [m|] eqn:Hm; cbn [fst]; intros [= <-].
    + intros _. destruct (model_path (model_loader w)) as [p|] eqn:Hp.
      * exists p. reflexivity.
      * apply Hw in Hp. congruence.
    + discriminate.
Qed.

(** X9 at a new service, whose loader is empty. *)
Lemma loader_consistent_kept_witness :
  loader_consistent (model_loader fresh) /\
  loader_consistent
    (model_loader (snd (detect_objects stub_env (SrcStr "a.jpg") (Some ∅) fresh))).
Proof.
  assert (H : loader_consistent (model_loader fresh)) by (split; reflexivity).
  split; [exact H|].
  destruct (loader_consistent_kept stub_env fresh H) as (_ & _ & _ & Hd & _).
  exact (Hd (SrcStr "a.jpg") (Some ∅)).
Defined.

(** ** predict_batch *)

Lemma predict_with_cases (env : Env) (source : ImageSource) (kwargs : dict) (w : World) :
  (exists e, predict_with env source kwargs w = (Raise e, w)) \/
  (exists m,
     model (model_loader w) = Some m /\
     predict_with env source kwargs w =
       (model_call env (trace w) m source
          (dict_get kwargs "confidence" (VFloat 0.25))
          (dict_get kwargs "iou_threshold" (VFloat 0.45))
          (dict_get kwargs "max_detections" (VInt 1000))
          (dict_get kwargs "classes" VNone),
        logged [EvModelCall m source
                  (dict_get kwargs "confidence" (VFloat 0.25))
                  (dict_get kwargs "iou_threshold" (VFloat 0.45))
                  (dict_get kwargs "max_detections" (VInt 1000))
                  (dict_get kwargs "classes" VNone)] w)).
Proof.
  unfold predict_with.
  destruct (bool_decide _); [|left; eexists; reflexivity].
  rewrite predict_unfold.
  destruct (model (model_loader w)) as [m|]; [|left; eexists; reflexivity].
  right. exists m. split; reflexivity.
Qed.

Lemma predict_batch_loop_cons (env : Env) (source : ImageSource)
    (rest : list ImageSource) (kwargs : dict) (results : list (list RawDetection))
    (w : World) :
  predict_batch_loop env (source :: rest) kwargs results w =
    match predict_with env source kwargs w with
    | (Ok detections, w1) => predict_batch_loop env rest kwargs (results ++ [detections]) w1
    | (Raise e, w1) => (Raise e, w1)
    end.
Proof. reflexivity. Qed.

Lemma predict_batch_loop_ok (env : Env) (kwargs : dict) (sources : list ImageSource) :
  forall (results all : list (list RawDetection)) (w w' : World),
  predict_batch_loop env sources kwargs results w = (Ok all, w') ->
  exists added new,
    all = results ++ added /\ length added = length sources /\
    w' = logged new w /\
    model_calls new = call_args kwargs <$> sources.
Proof.
  induction sources as [|s rest IH]; intros results all w w' H.
  - injection H as <- <-. exists [], []. rewrite app_nil_r, logged_nil. auto.
  - rewrite predict_batch_loop_cons in H.
    destruct (predict_with_cases env s kwargs w) as [[e He]|(m & Hm & Hcall)].
    + rewrite He in H. discriminate H.
    + rewrite Hcall in H.
      destruct (model_call env (trace w) m s _ _ _ _) as [ds|e]; [|discriminate H].
      apply IH in H as (added & new & -> & Hlen & -> & Hcalls).
      exists (ds :: added), (new ++ [EvModelCall m s
                  (dict_get kwargs "confidence" (VFloat 0.25))
                  (dict_get kwargs "iou_threshold" (VFloat 0.45))
                  (dict_get kwargs "max_detections" (VInt 1000))
                  (dict_get kwargs "classes" VNone)]).
      split; [now rewrite <- app_assoc|]. split; [cbn; now rewrite Hlen|].
      split; [unfold logged; cbn; now rewrite <- app_assoc|].
      rewrite model_calls_app, Hcalls. reflexivity.
Qed.

Lemma predict_batch_loop_raise (env : Env) (kwargs : dict) (sources : list ImageSource) :
  forall (results : list (list RawDetection)) (e : exn) (w w' : World),
  predict_batch_loop env sources kwargs results w = (Raise e, w') ->
  exists pre s post done w1,
    sources = pre ++ s :: post /\
    predict_batch_loop env pre kwargs results w = (Ok done, w1) /\
    predict_with env s kwargs w1 = (Raise e, w').
Proof.
  induction sources as [|s rest IH]; intros results e w w' H; [discriminate H|].
  rewrite predict_batch_loop_cons in H.
  destruct (predict_with env s kwargs w) as [[ds|e1] w1] eqn:Hs.
  - apply IH in H as (pre & s' & post & done & w2 & -> & Hpre & Hfail).
    exists (s :: pre), s', post, done, w2. split; [reflexivity|].
    split; [|exact Hfail].
    rewrite predict_batch_loop_cons, Hs. exact Hpre.
  - injection H as <- <-.
    exists [], s, rest, results, w. split; [reflexivity|].
    split; [reflexivity|exact Hs].
Qed.

(** X10: [predict_batch] is all or nothing and stops at the first
    failure.  When it returns, there is one list of detections per
    source and the engine was called once per source, in order, each
    time with the keywords given (defaults 0.25, 0.45, 1000 and no
    classes).  When it raises, the sources split into those before the
    failing one, the failing one and the rest: the batch over the ones
    before succeeds, the error is the one [predict] raises for the
    failing source right after them, and the world the batch leaves is
    the world that failing call left, so nothing is called for the
    rest.  The loader and the service are not written either way.  On
    an empty list of sources it returns [[]] and calls nothing, even
    with no model loaded or with a keyword [predict] does not have. *)
Theorem predict_batch_spec (env : Env) (sources : list ImageSource) (kwargs : dict)
    (w : World) :
  match predict_batch env sources kwargs w with
  | (Ok results, w') =>
      length results = length sources /\
      exists new,
        w' = logged new w /\
        model_calls new = call_args kwargs <$> sources
  | (Raise e, w') =>
      exists pre s post done w1 new,
        sources = pre ++ s :: post /\
        predict_batch env pre kwargs w = (Ok done, w1) /\
        predict_with env s kwargs w1 = (Raise e, w') /\
        w' = logged new w /\
        (model_calls new = call_args kwargs <$> pre \/
         model_calls new = call_args kwargs <$> pre ++ [s])
  end /\
  predict_batch env [] kwargs w = (Ok [], w).
Proof.
  split; [|reflexivity]. unfold predict_batch.
  destruct (predict_batch_loop env sources kwargs [] w) as [[all|e] w'] eqn:H.
  - apply predict_batch_loop_ok in H as (added & new & -> & Hlen & -> & Hcalls).
    split; [exact Hlen|]. exists new. split; [reflexivity|exact Hcalls].
  - apply predict_batch_loop_raise in H as (pre & s & post & done & w1 & -> & Hpre & Hfail).
    pose proof Hpre as Hok.
    apply predict_batch_loop_ok in Hok as (added & new & _ & _ & -> & Hcalls).
    destruct (predict_with_cases env s kwargs (logged new w))
      as [[e' He]|(m & Hm & Hcall)].
    + rewrite He in Hfail. injection Hfail as <- <-.
      exists pre, s, post, done, (logged new w), new.
      split; [reflexivity|]. split; [exact Hpre|]. split; [exact He|].
      split; [reflexivity|]. left. exact Hcalls.
    + rewrite Hcall in Hfail. injection Hfail as Hraise <-.
      eexists pre, s, post, done, (logged new w), (_ :: new).
      split; [reflexivity|]. split; [exact Hpre|].
      split; [rewrite Hcall; f_equal; exact Hraise|].
      split; [reflexivity|]. right.
      rewrite fmap_app. cbn [model_calls]. rewrite Hcalls. reflexivity.
Qed.

(** ** get_model_status *)

(** X11: [get_model_status()] never raises and changes nothing.  Its
    [model_loaded] is true exactly when the loader holds a model, its
    [model_config] is the active configuration as a dictionary, or
    [None] when there is none, and its [model_info] is what
    [get_model_info()] returns. *)
Theorem get_model_status_spec (w : World) :
  exists st,
    get_model_status w = (Ok st, w) /\
    (status_model_loaded st = true <-> model (model_loader w) <> None) /\
    status_model_config st = asdict <$> model_config w /\
    get_model_info w = (Ok (status_model_info st), w).
Proof.
  unfold get_model_status, get_model_info. unfold_M.
  destruct (model (model_loader w)) as [m|]; cbv beta iota.
  - eexists. split; [reflexivity|]. cbn [status_model_loaded status_model_config
      status_model_info]. split; [|split; reflexivity].
    split; [discriminate|reflexivity].
  - eexists. split; [reflexivity|]. cbn [status_model_loaded status_model_config
      status_model_info]. split; [|split; reflexivity].
    split; [discriminate|congruence].
Qed.

Lemma initialize_model_true (env : Env) (cfg : ModelConfiguration.t) (w w' : World) :
  initialize_model env cfg w = (Ok true, w') ->
  model_config w' = Some cfg /\
  exists m,
    model (model_loader w') = Some m /\
    model_path (model_loader w') = Some (ModelConfiguration.model_name cfg).
Proof.
  rewrite initialize_model_unfold.
  destruct (ModelConfiguration.is_valid cfg) as [[|]|e]; try discriminate.
  destruct (load_model env _ (validated cfg w)) as [[m|e] w1] eqn:Hl; try discriminate.
  intros [= <-].
  destruct (load_model_ok_loaded _ _ _ _ _ Hl) as [Hm Hp].
  destruct (load_model_frame env (ModelConfiguration.model_name cfg) (validated cfg w))
    as (new & l & Hw & _).
  rewrite Hl in Hw. cbn [snd] in Hw. split; [now rewrite Hw|]. eauto.
Qed.

(** X12: after an [initialize_model(cfg)] that returned [True], the
    status reports a loaded model, [cfg] as the active configuration,
    and [cfg.model_name] as the loaded model's path. *)
Theorem status_after_initialize_model
    (env : Env) (cfg : ModelConfiguration.t) (w w' : World) :
  initialize_model env cfg w = (Ok true, w') ->
  exists st,
    get_model_status w' = (Ok st, w') /\
    status_model_loaded st = true /\
    status_model_config st = Some (asdict cfg) /\
    status_model_info st !! "status" = Some (VStr "loaded") /\
    status_model_info st !! "model_path" = Some (VStr (ModelConfiguration.model_name cfg)).
Proof.
  intros Hinit. apply initialize_model_true in Hinit as (Hc & m & Hm & Hp).
  unfold get_model_status, get_model_info. unfold_M.
  rewrite Hm, Hp, Hc. cbv beta iota.
  eexists. split; [reflexivity|]. repeat split; reflexivity.
Qed.

(** X12 on the stub engine, with the configuration that has an
    allow-list. *)
Lemma status_after_initialize_model_witness :
  exists st,
    get_model_status with_allow_list = (Ok st, with_allow_list) /\
    status_model_loaded st = true /\
    status_model_config st = Some (asdict bottle_only) /\
    status_model_info st !! "status" = Some (VStr "loaded") /\
    status_model_info st !! "model_path" = Some (VStr "GarIA.pt").
Proof.
  apply (status_after_initialize_model stub_env bottle_only fresh). reflexivity.
Defined.

(** ** _merge_configs and _get_image_info *)

(** X13: [_merge_configs] raises a [ValueError] when the service has no
    active configuration.  Otherwise it returns, without changing
    anything, a dictionary whose keys are the caller's keys and the three
    keys [confidence], [iou_threshold] and [max_detections]: a key of the
    caller keeps the caller's value, unknown keys included, and each of
    the three keys the caller does not give has the value of the active
    configuration. *)
Theorem merge_configs_spec (custom_config : dict) (w : World) :
  match model_config w with
  | None =>
      _merge_configs custom_config w =
        (Raise (ValueError "Modelo não inicializado. Chame initialize_model() primeiro."), w)
  | Some c =>
      exists config : dict,
        _merge_configs custom_config w = (Ok config, w) /\
        dom config =
          dom custom_config ∪
          ({["confidence"; "iou_threshold"; "max_detections"]} : gset string) /\
        (forall k v, custom_config !! k = Some v -> config !! k = Some v) /\
        (custom_config !! "confidence" = None ->
           config !! "confidence" = Some (ModelConfiguration.confidence_threshold c)) /\
        (custom_config !! "iou_threshold" = None ->
           config !! "iou_threshold" = Some (ModelConfiguration.iou_threshold c)) /\
        (custom_config !! "max_detections" = None ->
           config !! "max_detections" = Some (ModelConfiguration.max_detections c))
  end.
Proof.
  unfold _merge_configs. unfold_M.
  destruct (model_config w) as [c|]; [|reflexivity].
  eexists. split; [reflexivity|]. split; [|split; [|split; [|split]]].
  - rewrite dom_union_L, !dom_insert_L, dom_empty_L. set_solver.
  - intros k v Hk. now apply lookup_union_Some_l.
  - intros Hk. rewrite lookup_union_r by exact Hk. reflexivity.
  - intros Hk. rewrite lookup_union_r by exact Hk. reflexivity.
  - intros Hk. rewrite lookup_union_r by exact Hk. reflexivity.
Qed.

Lemma get_image_info_events (env : Env) (image_source : ImageSource) (w : World) :
  exists info new,
    _get_image_info env image_source w = (Ok info, logged new w) /\
    (new = [] \/ exists path, image_source = SrcStr path /\ new = [EvImageOpen path]).
Proof.
  unfold _get_image_info, read_local. unfold_M.
  destruct image_source as [path|img|shape dtype|].
  - destruct (Image_open env (trace w) path) as [img|e]; cbv beta iota;
      eexists _, [EvImageOpen path]; split; eauto.
  - eexists _, []. rewrite logged_nil. split; eauto.
  - eexists _, []. rewrite logged_nil. split; eauto.
  - eexists _, []. rewrite logged_nil. split; eauto.
Qed.

(** What [_get_image_info] returns for a source that is not a path. *)
Lemma get_image_info_unbound (env : Env) (image_source : ImageSource) (w : World) :
  (forall path, image_source <> SrcStr path) ->
  _get_image_info env image_source w =
    (Ok (<["error" := VStr Image_unbound]> (<["source_type" := VStr "error"]> ∅)), w).
Proof.
  intros Hsrc. destruct image_source as [path|img|shape dtype|];
    [now destruct (Hsrc path)|reflexivity..].
Qed.

(** X14: [_get_image_info] never raises and does not touch the service
    object; the only outside call it can make is [Image.open] on a path.
    Its dictionary always has a ["source_type"], which is [file_path] or
    [error]: [file_path] exactly when the source is a path that
    [Image.open] opens, and it has an ["error"] entry exactly when the
    type is [error]. *)
Theorem get_image_info_never_raises (env : Env) (image_source : ImageSource) (w : World) :
  exists info new tag,
    _get_image_info env image_source w = (Ok info, logged new w) /\
    (new = [] \/ exists path, image_source = SrcStr path /\ new = [EvImageOpen path]) /\
    info !! "source_type" = Some (VStr tag) /\
    tag ∈ ["file_path"; "error"] /\
    (is_Some (info !! "error") <-> tag = "error") /\
    (tag = "file_path" <->
       exists path img,
         image_source = SrcStr path /\ Image_open env (trace w) path = Ok img).
Proof.
  destruct image_source as [path|img|shape dtype|].
  - unfold _get_image_info. unfold_M.
    destruct (Image_open env (trace w) path) as [img|e] eqn:Hopen; cbv beta iota.
    + eexists _, [EvImageOpen path], "file_path". split; [reflexivity|].
      split; [eauto|]. split; [reflexivity|]. split; [set_solver|].
      split; [split; [intros [v Hv]; discriminate|discriminate]|].
      split; [intros _; eauto|reflexivity].
    + eexists _, [EvImageOpen path], "error". split; [reflexivity|].
      split; [eauto|]. split; [reflexivity|]. split; [set_solver|].
      split; [split; [reflexivity|intros _; eexists; reflexivity]|].
      split; [discriminate|]. intros (path' & img & [= <-] & Hok). congruence.
  - rewrite get_image_info_unbound by discriminate.
    eexists _, [], "error". rewrite logged_nil. split; [reflexivity|].
    split; [eauto|]. split; [reflexivity|]. split; [set_solver|].
    split; [split; [reflexivity|intros _; eexists; reflexivity]|].
    split; [discriminate|]. intros (path' & img' & [=] & _).
  - rewrite get_image_info_unbound by discriminate.
    eexists _, [], "error". rewrite logged_nil. split; [reflexivity|].
    split; [eauto|]. split; [reflexivity|]. split; [set_solver|].
    split; [split; [reflexivity|intros _; eexists; reflexivity]|].
    split; [discriminate|]. intros (path' & img' & [=] & _).
  - rewrite get_image_info_unbound by discriminate.
    eexists _, [], "error". rewrite logged_nil. split; [reflexivity|].
    split; [eauto|]. split; [reflexivity|]. split; [set_solver|].
    split; [split; [reflexivity|intros _; eexists; reflexivity]|].
    split; [discriminate|]. intros (path' & img' & [=] & _).
Qed.

(** ** The record detect_objects returns *)

(** A successful [detect_objects] in full: the world [w1] its
    [initialize_model] step left, the engine's answer, the clock
    readings around the inference, and the record assembled from
    them. *)
Lemma detect_objects_success (env : Env) (source : ImageSource) (custom_config : dict)
    (w w' : World) (r : DetectionResult.t) :
  detect_objects env source (Some custom_config) w = (Ok r, w') ->
  let w1 := snd (initialize_model env (request_config custom_config) w) in
  exists c m raw info new minfo,
    model_config w1 = Some c /\
    model (model_loader w1) = Some m /\
    let call := call_of c custom_config m source in
    let w3 := logged [EvTime; call; EvTime] w1 in
    model_call env (EvTime :: trace w1) m source
      (dict_get custom_config "confidence" (ModelConfiguration.confidence_threshold c))
      (dict_get custom_config "iou_threshold" (ModelConfiguration.iou_threshold c))
      (dict_get custom_config "max_detections" (ModelConfiguration.max_detections c))
      (dict_get custom_config "class_ids" VNone) = Ok raw /\
    _get_image_info env source w3 = (Ok info, logged new w3) /\
    (new = [] \/ exists path, source = SrcStr path /\ new = [EvImageOpen path]) /\
    get_model_info (logged new w3) = (Ok minfo, logged new w3) /\
    w' = logged (EvNow :: new) w3 /\
    r = {| DetectionResult.detections := retained c (_convert_to_domain_entities raw);
           DetectionResult.image_info := info;
           DetectionResult.processing_time :=
             (time_time env (call :: EvTime :: trace w1) - time_time env (trace w1))%Q;
           DetectionResult.model_info := minfo;
           DetectionResult.timestamp := datetime_now env (new ++ trace w3) |}.
Proof.
  unfold detect_objects.
  unfold bind at 1. unfold ret at 1. unfold bind at 1.
  destruct (initialize_model_returns env (request_config custom_config) w) as [b Hinit].
  rewrite Hinit. set (w1 := snd (initialize_model env (request_config custom_config) w)).
  clearbody w1. clear Hinit. cbn [snd].
  unfold bind at 1. unfold get_model_config at 1.
  destruct (model_config w1) as [c|] eqn:Hc; [|discriminate].
  unfold bind at 1. unfold ask at 1. unfold try_except at 1.
  unfold bind at 1.
  set (w2 := {| model_loader := model_loader w1; model_config := model_config w1;
                trace := EvTime :: trace w1 |}).
  assert (Hc2 : model_config w2 = Some c) by exact Hc.
  destruct (merge_configs_lookup custom_config c w2 "confidence" Hc2) as (config & Hm & Hk1).
  destruct (merge_configs_lookup custom_config c w2 "iou_threshold" Hc2) as (config2 & Hm2 & Hk2).
  destruct (merge_configs_lookup custom_config c w2 "max_detections" Hc2) as (config3 & Hm3 & Hk3).
  destruct (merge_configs_lookup custom_config c w2 "class_ids" Hc2) as (config4 & Hm4 & Hk4).
  rewrite Hm in Hm2, Hm3, Hm4. injection Hm2 as <-. injection Hm3 as <-. injection Hm4 as <-.
  rewrite Hm.
  unfold bind at 1. unfold lift at 1.
  rewrite (dict_index_merged custom_config config "confidence" _ Hk1).
  unfold bind at 1. unfold lift at 1.
  rewrite (dict_index_merged custom_config config "iou_threshold" _ Hk2).
  unfold bind at 1. unfold lift at 1.
  rewrite (dict_index_merged custom_config config "max_detections" _ Hk3).
  assert (Hids : dict_get config "class_ids" VNone = dict_get custom_config "class_ids" VNone).
  { unfold dict_get. rewrite Hk4. now destruct (custom_config !! "class_ids"). }
  rewrite Hids. clear Hm Hk1 Hk2 Hk3 Hk4 Hids config.
  unfold bind at 1. rewrite predict_unfold.
  change (model_loader w2) with (model_loader w1).
  change (trace w2) with (EvTime :: trace w1).
  destruct (model (model_loader w1)) as [m|] eqn:Hmodel; [|discriminate].
  destruct (model_call env (EvTime :: trace w1) m source _ _ _ _) as [raw|e] eqn:Hcall;
    [|discriminate].
  unfold bind at 1. unfold get_model_config at 1.
  change (model_config (logged _ w2)) with (model_config w1). rewrite Hc.
  unfold bind at 1.
  assert (Hret : forall w0,
            match ModelConfiguration.target_classes c with
            | Some tc =>
                ret (List.filter (fun d => str_in (Detection.class_name d) tc)
                       (_convert_to_domain_entities raw))
            | None => ret (_convert_to_domain_entities raw)
            end w0 = (Ok (retained c (_convert_to_domain_entities raw)), w0)).
  { intros w0. unfold retained. now destruct (ModelConfiguration.target_classes c). }
  rewrite Hret. clear Hret.
  unfold bind at 1. unfold ask at 1. unfold bind at 1.
  match goal with
  | |- context [_get_image_info env source ?w0] =>
      destruct (get_image_info_events env source w0) as (info & new & Hinfo & Hnew);
      rewrite Hinfo
  end.
  unfold bind at 1.
  match goal with
  | |- context [get_model_info ?w0] =>
      destruct (get_model_info_pure w0) as (minfo & Hminfo); rewrite Hminfo
  end.
  unfold bind at 1. unfold ask at 1. unfold ret at 1.
  intros [= <- <-].
  exists c, m, raw, info, new, minfo.
  split; [reflexivity|]. split; [reflexivity|]. cbv zeta.
  split; [exact Hcall|]. split; [exact Hinfo|]. split; [exact Hnew|].
  split; [exact Hminfo|]. split; reflexivity.
Qed.

(** X15: a source that is not a path never gets its size reported.
    For a PIL image, an array or anything else [_get_image_info]
    returns the error dictionary without any outside call: the branches
    that would report [pil_image], [numpy_array] or [unknown] are never
    reached, because the test before them reads the local name [Image]
    that only the path branch binds.  So every [DetectionResult] that
    [detect_objects] returns for such a source carries that error
    dictionary as its [image_info]. *)
Theorem image_info_of_non_path_source (env : Env) (image_source : ImageSource) :
  (forall path, image_source <> SrcStr path) ->
  exists msg : string,
    (forall w,
       _get_image_info env image_source w =
         (Ok (<["error" := VStr msg]> (<["source_type" := VStr "error"]> ∅)), w)) /\
    (forall custom_config w r w',
       detect_objects env image_source custom_config w = (Ok r, w') ->
       DetectionResult.image_info r =
         <["error" := VStr msg]> (<["source_type" := VStr "error"]> ∅)).
Proof.
  intros Hsrc. exists Image_unbound. split.
  - intros w. now apply get_image_info_unbound.
  - intros [custom_config|] w r w' Hrun; [|discriminate Hrun].
    apply detect_objects_success in Hrun. cbv zeta in Hrun.
    destruct Hrun as (c & m & raw & info & new & minfo & _ & _ & _ & Hinfo & _ & _ & _ & ->).
    rewrite get_image_info_unbound in Hinfo by exact Hsrc.
    injection Hinfo as <- _. reflexivity.
Qed.

(** X15 on the stub engine: an array of shape (480, 640, 3) is
    detected on, and the result has no width. *)
Lemma image_info_of_non_path_source_witness :
  exists r w',
    detect_objects stub_env (SrcArray [480; 640; 3]%Z "uint8") (Some ∅) fresh
      = (Ok r, w') /\
    length (DetectionResult.detections r) = 2%nat /\
    DetectionResult.image_info r !! "source_type" = Some (VStr "error") /\
    DetectionResult.image_info r !! "width" = None.
Proof.
  destruct (detect_objects stub_env (SrcArray [480; 640; 3]%Z "uint8") (Some ∅) fresh)
    as [[r|e] w'] eqn:Hrun; [|vm_compute in Hrun; discriminate].
  exists r, w'. split; [reflexivity|].
  destruct (image_info_of_non_path_source stub_env (SrcArray [480; 640; 3]%Z "uint8"))
    as (msg & _ & Hd); [intros path; discriminate|].
  rewrite (Hd _ _ _ _ Hrun).
  split; [|split; reflexivity].
  vm_compute in Hrun. injection Hrun as <- _. reflexivity.
Defined.

Lemma logged_twice (new1 new2 : list event) (w : World) :
  logged new2 (logged new1 w) = logged (new2 ++ new1) w.
Proof. unfold logged. cbn. now rewrite app_assoc. Qed.

Lemma yolo_loads_app (tr1 tr2 : list event) :
  yolo_loads (tr1 ++ tr2) = yolo_loads tr2 ++ yolo_loads tr1.
Proof.
  induction tr1 as [|e tr1 IH]; cbn.
  - now rewrite app_nil_r.
  - destruct e; rewrite ?IH, ?app_assoc; reflexivity.
Qed.

Lemma clock_monotone_app (env : Env) :
  clock_monotone env ->
  forall new tr, (time_time env tr <= time_time env (new ++ tr))%Q.
Proof.
  intros Hmono new tr. induction new as [|e new IH]; cbn.
  - apply Qle_refl.
  - apply Qle_trans with (time_time env (new ++ tr)); [exact IH|apply Hmono].
Qed.

(** X16: when the clock does not go back, the [processing_time] of a
    returned [DetectionResult] is not negative: it is the clock reading
    after the inference minus the one before it. *)
Theorem processing_time_nonneg (env : Env) (source : ImageSource) (custom_config : dict)
    (w w' : World) (r : DetectionResult.t) :
  clock_monotone env ->
  detect_objects env source (Some custom_config) w = (Ok r, w') ->
  (0 <= DetectionResult.processing_time r)%Q.
Proof.
  intros Hmono Hrun.
  apply detect_objects_success in Hrun
    as (c & m & raw & info & new & minfo & _ & _ & _ & _ & _ & _ & _ & ->).
  cbn [DetectionResult.processing_time].
  set (w1 := snd (initialize_model env (request_config custom_config) w)).
  pose proof (clock_monotone_app env Hmono
                [call_of c custom_config m source; EvTime] (trace w1)) as H.
  cbn [app] in H. lra.
Qed.

Lemma stub_clock_monotone : clock_monotone stub_env.
Proof.
  intros tr e. cbn. rewrite <- Zle_Qle. lia.
Qed.

(** X16 on the stub engine, whose clock counts the events. *)
Lemma processing_time_nonneg_witness :
  exists r w',
    detect_objects stub_env (SrcStr "a.jpg") (Some ∅) fresh = (Ok r, w') /\
    (0 <= DetectionResult.processing_time r)%Q.
Proof.
  destruct (detect_objects stub_env (SrcStr "a.jpg") (Some ∅) fresh)
    as [[r|e] w'] eqn:Hrun; [|vm_compute in Hrun; discriminate].
  exists r, w'. split; [reflexivity|].
  exact (processing_time_nonneg _ _ _ _ _ _ stub_clock_monotone Hrun).
Defined.

(** X17: the [model_info] of a returned [DetectionResult] is the
    [get_model_info()] of the service as the call leaves it, and it
    always says ["loaded"]: a result is only returned when a model was
    there to run the inference. *)
Theorem result_model_info_loaded (env : Env) (source : ImageSource) (custom_config : dict)
    (w w' : World) (r : DetectionResult.t) :
  detect_objects env source (Some custom_config) w = (Ok r, w') ->
  get_model_info w' = (Ok (DetectionResult.model_info r), w') /\
  DetectionResult.model_info r !! "status" = Some (VStr "loaded") /\
  model (model_loader w') <> None.
Proof.
  intros Hrun.
  apply detect_objects_success in Hrun
    as (c & m & raw & info & new & minfo & _ & Hm & _ & _ & _ & Hinfo & -> & ->).
  cbn [DetectionResult.model_info].
  set (w1 := snd (initialize_model env (request_config custom_config) w)) in *.
  unfold get_model_info in *. unfold_M.
  change (model_loader (logged _ (logged _ w1))) with (model_loader w1) in *.
  rewrite Hm in *. injection Hinfo as <-.
  split; [reflexivity|]. split; [reflexivity|discriminate].
Qed.

Lemma result_model_info_loaded_witness :
  exists r w',
    detect_objects stub_env (SrcStr "a.jpg") (Some ∅) fresh = (Ok r, w') /\
    get_model_info w' = (Ok (DetectionResult.model_info r), w') /\
    DetectionResult.model_info r !! "status" = Some (VStr "loaded") /\
    model (model_loader w') <> None.
Proof.
  destruct (detect_objects stub_env (SrcStr "a.jpg") (Some ∅) fresh)
    as [[r|e] w'] eqn:Hrun; [|vm_compute in Hrun; discriminate].
  exists r, w'. split; [reflexivity|].
  exact (result_model_info_loaded _ _ _ _ _ _ Hrun).
Defined.

(** ** What a request loads, and what it leaves *)

Lemma load_model_events (env : Env) (model_name : string) (w : World) :
  exists new,
    trace (snd (load_model env model_name w)) = new ++ trace w /\
    model_calls new = [] /\
    (yolo_loads new = [] \/ yolo_loads new = [join_models model_name] \/
     yolo_loads new = [model_name]).
Proof.
  destruct (model (model_loader w)) as [m0|] eqn:Hm.
  - destruct (decide (model_path (model_loader w) = Some model_name)) as [Hp|Hp].
    + rewrite (load_model_reuse env model_name w m0 Hm Hp). exists []. auto.
    + rewrite load_model_reload by auto. unfold resolved_path. cbv zeta.
      destruct (os_path_exists env _ _);
        destruct (YOLO_new env _ _); eexists [_; _]; cbn; auto.
  - rewrite load_model_reload by auto. unfold resolved_path. cbv zeta.
    destruct (os_path_exists env _ _);
      destruct (YOLO_new env _ _); eexists [_; _]; cbn; auto.
Qed.

Lemma yolo_loads_validated (cfg : ModelConfiguration.t) (new : list event) :
  yolo_loads (new ++ [EvIsValid cfg]) = yolo_loads new.
Proof. now rewrite yolo_loads_app. Qed.

Lemma initialize_model_events (env : Env) (cfg : ModelConfiguration.t) (w : World) :
  exists new,
    trace (snd (initialize_model env cfg w)) = new ++ trace w /\
    model_calls new = [] /\
    (yolo_loads new = [] \/
     yolo_loads new = [join_models (ModelConfiguration.model_name cfg)] \/
     yolo_loads new = [ModelConfiguration.model_name cfg]).
Proof.
  rewrite initialize_model_unfold.
  destruct (ModelConfiguration.is_valid cfg) as [[|]|e].
  - destruct (load_model_events env (ModelConfiguration.model_name cfg) (validated cfg w))
      as (new & Ht & Hc & Hy).
    exists (new ++ [EvIsValid cfg]).
    rewrite yolo_loads_validated, model_calls_app, Hc.
    destruct (load_model env _ _) as [[m|e] w1]; cbn [snd] in *;
      rewrite Ht; cbn [validated trace]; rewrite <- app_assoc; auto.
  - exists [EvIsValid cfg]. repeat split. now left.
  - exists [EvIsValid cfg]. repeat split. now left.
Qed.

Lemma detect_objects_after_init (env : Env) (source : ImageSource) (custom_config : dict)
    (w : World) :
  exists new,
    snd (detect_objects env source (Some custom_config) w) =
      logged new (snd (initialize_model env (request_config custom_config) w)) /\
    (length (model_calls new) <= 1)%nat /\
    yolo_loads new = [].
Proof.
  destruct (detect_objects env source (Some custom_config) w) as [[r|e] w'] eqn:Hrun.
  - apply detect_objects_success in Hrun
      as (c & m & raw & info & new & minfo & _ & _ & _ & _ & Hnew & _ & -> & _).
    cbn [snd]. eexists. split; [apply logged_twice|].
    destruct Hnew as [->|(path & _ & ->)]; cbn; auto.
  - apply detect_objects_outcome in Hrun.
    remember (snd (initialize_model env (request_config custom_config) w)) as w1 eqn:Hw1.
    clear Hw1. cbn [snd].
    inversion Hrun; subst.
    + exists []. rewrite logged_nil. cbn. auto.
    + exists [EvTime]. cbn. auto.
    + eexists [_; _]. split; [reflexivity|]. cbn. auto.
Qed.

(** X18: whatever configuration is active and whatever the caller
    asks for, a [detect_objects] call attempts at most one model load,
    and only of ["GarIA.pt"]: the file ["models/GarIA.pt"] when it
    exists, the bare name otherwise.  It calls the engine at most
    once. *)
Theorem detect_objects_loads_only_GarIA
    (env : Env) (source : ImageSource) (custom_config : option dict) (w : World) :
  exists new,
    trace (snd (detect_objects env source custom_config w)) = new ++ trace w /\
    (yolo_loads new = [] \/ yolo_loads new = ["models/GarIA.pt"] \/
     yolo_loads new = ["GarIA.pt"]) /\
    (length (model_calls new) <= 1)%nat.
Proof.
  destruct custom_config as [cc|]; [|exists []; cbn; auto].
  destruct (detect_objects_after_init env source cc w) as (new2 & Hw & Hc2 & Hy2).
  destruct (initialize_model_events env (request_config cc) w) as (new1 & Ht & Hc1 & Hy1).
  exists (new2 ++ new1). rewrite Hw. unfold logged. cbn [trace].
  rewrite Ht, app_assoc. split; [reflexivity|].
  rewrite yolo_loads_app, model_calls_app, Hy2, Hc1, app_nil_r. cbn [app].
  split; [exact Hy1|exact Hc2].
Qed.

(** X19: a request whose configuration does not pass [is_valid()]
    leaves the service object as it found it: the active configuration
    and the loader are the same after the call, whether it raises or
    returns. *)
Theorem invalid_request_leaves_service
    (env : Env) (source : ImageSource) (custom_config : dict) (w : World) :
  ModelConfiguration.is_valid (request_config custom_config) <> Ok true ->
  model_config (snd (detect_objects env source (Some custom_config) w)) = model_config w /\
  model_loader (snd (detect_objects env source (Some custom_config) w)) = model_loader w.
Proof.
  intros Hv.
  destruct (detect_objects_after_init env source custom_config w) as (new & Hw & _).
  rewrite Hw, (initialize_model_invalid env _ w Hv). split; reflexivity.
Qed.

Lemma invalid_request_leaves_service_witness :
  let w' := snd (detect_objects stub_env (SrcStr "a.jpg")
                   (Some {[ "confidence" := VFloat 1.5 ]}) after_half) in
  model_config w' = model_config after_half /\
  model_loader w' = model_loader after_half.
Proof.
  apply invalid_request_leaves_service. vm_compute. discriminate.
Defined.

(** ** More on detect_objects_batch *)

Lemma batch_loop_accumulator (env : Env) (custom_config : option dict)
    (image_sources : list ImageSource) :
  forall (results : list DetectionResult.t) (w : World),
  exists new,
    batch_loop env image_sources custom_config [] w =
      (Ok new, snd (batch_loop env image_sources custom_config [] w)) /\
    batch_loop env image_sources custom_config results w =
      (Ok (results ++ new), snd (batch_loop env image_sources custom_config [] w)).
Proof.
  induction image_sources as [|s rest IH]; intros results w.
  - exists []. cbn. now rewrite app_nil_r.
  - rewrite !batch_loop_cons.
    destruct (IH [fst (slot env s custom_config w)] (snd (slot env s custom_config w)))
      as (new & H0 & H1).
    destruct (IH (results ++ [fst (slot env s custom_config w)])
                 (snd (slot env s custom_config w)))
      as (new' & H0' & H2).
    rewrite H0 in H0'. injection H0' as <-.
    exists (fst (slot env s custom_config w) :: new).
    cbn [app]. rewrite H1, H2. cbn [snd app]. rewrite <- app_assoc. split; reflexivity.
Qed.

Lemma batch_loop_app (env : Env) (custom_config : option dict)
    (sources1 sources2 : list ImageSource) :
  forall (results : list DetectionResult.t) (w : World),
    batch_loop env (sources1 ++ sources2) custom_config results w =
      match batch_loop env sources1 custom_config results w with
      | (Ok results1, w1) => batch_loop env sources2 custom_config results1 w1
      | (Raise e, w1) => (Raise e, w1)
      end.
Proof.
  induction sources1 as [|s rest IH]; intros results w; [reflexivity|].
  cbn [app]. rewrite !batch_loop_cons. apply IH.
Qed.

(** X20: a batch over [sources1 ++ sources2] is the batch over
    [sources1] followed by the batch over [sources2] on the service the
    first one left: the results are those of the two batches, one after
    the other. *)
Theorem detect_objects_batch_app (env : Env) (custom_config : option dict)
    (sources1 sources2 : list ImageSource) (w : World) :
  exists results1 results2 w1 w2,
    detect_objects_batch env sources1 custom_config w = (Ok results1, w1) /\
    detect_objects_batch env sources2 custom_config w1 = (Ok results2, w2) /\
    detect_objects_batch env (sources1 ++ sources2) custom_config w =
      (Ok (results1 ++ results2), w2).
Proof.
  unfold detect_objects_batch. rewrite batch_loop_app.
  destruct (batch_loop_accumulator env custom_config sources1 [] w) as (r1 & H1 & _).
  rewrite H1.
  set (w1 := snd (batch_loop env sources1 custom_config [] w)).
  destruct (batch_loop_accumulator env custom_config sources2 r1 w1) as (r2 & H2 & H3).
  exists r1, r2, w1, (snd (batch_loop env sources2 custom_config [] w1)).
  split; [reflexivity|]. split; [exact H2|exact H3].
Qed.

Lemma slot_events (env : Env) (source : ImageSource) (custom_config : option dict)
    (w : World) :
  exists new,
    trace (snd (slot env source custom_config w)) = new ++ trace w /\
    (length (model_calls new) <= 1)%nat /\
    (length (yolo_loads new) <= 1)%nat.
Proof.
  assert (H : exists new,
    trace (snd (detect_objects env source custom_config w)) = new ++ trace w /\
    (length (model_calls new) <= 1)%nat /\ (length (yolo_loads new) <= 1)%nat).
  { destruct custom_config as [cc|]; [|exists []; cbn; auto].
    destruct (detect_objects_after_init env source cc w) as (new2 & Hw & Hc2 & Hy2).
    destruct (initialize_model_events env (request_config cc) w) as (new1 & Ht & Hc1 & Hy1).
    exists (new2 ++ new1). rewrite Hw. unfold logged. cbn [trace].
    rewrite Ht, app_assoc. split; [reflexivity|].
    rewrite yolo_loads_app, model_calls_app, Hy2, Hc1, app_nil_r. cbn [app].
    split; [exact Hc2|]. destruct Hy1 as [->|[->| ->]]; cbn; lia. }
  destruct H as (new & Ht & Hc & Hy). unfold slot.
  destruct (detect_objects env source custom_config w) as [[r|e] w1]; cbn [snd] in *.
  - eauto.
  - exists (EvNow :: new). cbn [trace]. rewrite Ht. auto.
Qed.

Lemma batch_loop_events (env : Env) (custom_config : option dict)
    (image_sources : list ImageSource) :
  forall (results : list DetectionResult.t) (w : World),
  exists new,
    trace (snd (batch_loop env image_sources custom_config results w)) = new ++ trace w /\
    (length (model_calls new) <= length image_sources)%nat /\
    (length (yolo_loads new) <= length image_sources)%nat.
Proof.
  induction image_sources as [|s rest IH]; intros results w.
  - exists []. cbn. auto.
  - rewrite batch_loop_cons.
    destruct (slot_events env s custom_config w) as (new1 & Ht1 & Hc1 & Hy1).
    destruct (IH (results ++ [fst (slot env s custom_config w)])
                 (snd (slot env s custom_config w))) as (new2 & Ht2 & Hc2 & Hy2).
    exists (new2 ++ new1). rewrite Ht2, Ht1, app_assoc. split; [reflexivity|].
    rewrite model_calls_app, yolo_loads_app, !length_app. cbn [length]. lia.
Qed.

(** X21: a batch calls the engine at most once per image and attempts
    at most one model load per image. *)
Theorem detect_objects_batch_calls_bound (env : Env) (custom_config : option dict)
    (image_sources : list ImageSource) (w : World) :
  exists new,
    trace (snd (detect_objects_batch env image_sources custom_config w)) = new ++ trace w /\
    (length (model_calls new) <= length image_sources)%nat /\
    (length (yolo_loads new) <= length image_sources)%nat.
Proof. unfold detect_objects_batch. apply batch_loop_events. Qed.

Lemma batch_loop_None (env : Env) (image_sources : list ImageSource) :
  forall (results : list DetectionResult.t) (w : World),
  exists new,
    batch_loop env image_sources None results w =
      (Ok (results ++ new),
       logged (replicate (length image_sources) EvNow) w) /\
    length new = length image_sources /\
    Forall (fun r =>
              DetectionResult.detections r = [] /\
              DetectionResult.image_info r =
                {[ "error" := VStr "'NoneType' object has no attribute 'get'" ]} /\
              DetectionResult.processing_time r = 0%Q) new.
Proof.
  induction image_sources as [|s rest IH]; intros results w.
  - exists []. cbn [batch_loop length replicate]. rewrite logged_nil, app_nil_r.
    split; [reflexivity|]. split; [reflexivity|constructor].
  - rewrite batch_loop_cons.
    assert (Hslot : exists r,
      slot env s None w = (r, logged [EvNow] w) /\
      DetectionResult.detections r = [] /\
      DetectionResult.image_info r =
        {[ "error" := VStr "'NoneType' object has no attribute 'get'" ]} /\
      DetectionResult.processing_time r = 0%Q).
    { unfold slot. change (detect_objects env s None w)
        with (Raise (A:=DetectionResult.t)
                (AttributeError "'NoneType' object has no attribute 'get'"), w).
      cbv beta iota. eexists. split; [reflexivity|]. repeat split; reflexivity. }
    destruct Hslot as (r & Hs & Hr). rewrite Hs. cbn [fst snd].
    destruct (IH (results ++ [r]) (logged [EvNow] w)) as (new & Hrun & Hlen & Hall).
    exists (r :: new). rewrite Hrun. split; [|split].
    + rewrite <- app_assoc. cbn [app length replicate]. f_equal.
      rewrite logged_twice. f_equal.
      clear. induction (length rest) as [|n IHn]; cbn; [reflexivity|]. now rewrite IHn.
    + cbn. now rewrite Hlen.
    + constructor; assumption.
Qed.

(** X22: a batch called without a configuration fails on every image
    before doing anything: every slot is a failure record whose
    ["error"] is the [AttributeError] message, the service object is
    untouched, and the only outside calls are the [datetime.now()] of
    the failure records, one per image. *)
Theorem detect_objects_batch_None (env : Env) (image_sources : list ImageSource)
    (w : World) :
  exists results,
    detect_objects_batch env image_sources None w =
      (Ok results, logged (replicate (length image_sources) EvNow) w) /\
    length results = length image_sources /\
    Forall (fun r =>
              DetectionResult.detections r = [] /\
              DetectionResult.image_info r =
                {[ "error" := VStr "'NoneType' object has no attribute 'get'" ]} /\
              DetectionResult.processing_time r = 0%Q) results.
Proof.
  unfold detect_objects_batch.
  destruct (batch_loop_None env image_sources [] w) as (new & Hrun & Hlen & Hall).
  exists new. auto.
Qed.

(** ** When the model does not load *)

Lemma initialize_model_load_failed
    (env : Env) (cfg : ModelConfiguration.t) (w : World) (e : exn) :
  ModelConfiguration.is_valid cfg = Ok true ->
  fst (load_model env (ModelConfiguration.model_name cfg) (validated cfg w)) = Raise e ->
  model_config (snd (initialize_model env cfg w)) = Some cfg /\
  model_loader (snd (initialize_model env cfg w)) = model_loader w.
Proof.
  intros Hv Hload. rewrite initialize_model_unfold, Hv.
  destruct (load_model_frame env (ModelConfiguration.model_name cfg) (validated cfg w))
    as (new & l & Hw & _).
  destruct (load_model env _ _) as [[m'|e'] w1] eqn:Hl; cbn [fst snd] in *;
    [discriminate|].
  split; [now rewrite Hw|].
  destruct (model (model_loader (validated cfg w))) as [m0|] eqn:Hm.
  - destruct (decide (model_path (model_loader (validated cfg w)) =
                      Some (ModelConfiguration.model_name cfg))) as [Hp|Hp].
    + rewrite (load_model_reuse _ _ _ _ Hm Hp) in Hl. discriminate.
    + rewrite load_model_reload in Hl by auto. cbv zeta in Hl.
      destruct (YOLO_new env _ _) as [y|e2]; [discriminate Hl|injection Hl as _ <-; reflexivity].
  - rewrite load_model_reload in Hl by auto. cbv zeta in Hl.
    destruct (YOLO_new env _ _) as [y|e2]; [discriminate Hl|injection Hl as _ <-; reflexivity].
Qed.

(** X23: [initialize_model] stores a valid configuration before it
    loads the model: the configuration is the active one afterwards
    also when the load fails and [False] is returned, in which case the
    loader is as it was. *)
Theorem initialize_model_stores_before_loading
    (env : Env) (cfg : ModelConfiguration.t) (w : World) :
  ModelConfiguration.is_valid cfg = Ok true ->
  model_config (snd (initialize_model env cfg w)) = Some cfg /\
  (fst (initialize_model env cfg w) = Ok false ->
     model_loader (snd (initialize_model env cfg w)) = model_loader w /\
     exists e, fst (load_model env (ModelConfiguration.model_name cfg) (validated cfg w))
               = Raise e).
Proof.
  intros Hv. split.
  - destruct (initialize_model_valid env cfg w Hv) as (new & l & Hw & _).
    now rewrite Hw.
  - rewrite initialize_model_unfold, Hv.
    destruct (load_model env _ _) as [[m|e] w1] eqn:Hl; cbn [fst snd];
      [discriminate|]. intros _.
    assert (Hf : fst (load_model env (ModelConfiguration.model_name cfg)
                        (validated cfg w)) = Raise e) by now rewrite Hl.
    destruct (initialize_model_load_failed env cfg w e Hv Hf) as [_ Hloader].
    rewrite initialize_model_unfold, Hv, Hl in Hloader. cbn [snd] in Hloader.
    split; [exact Hloader|]. eauto.
Qed.

(** X23 without model files: [initialize_model] answers [False] and
    the configuration is stored all the same. *)
Lemma initialize_model_stores_before_loading_witness :
  fst (initialize_model offline_env bottle_only fresh) = Ok false /\
  model_config (snd (initialize_model offline_env bottle_only fresh)) = Some bottle_only.
Proof.
  split; [reflexivity|].
  apply (initialize_model_stores_before_loading offline_env bottle_only fresh).
  reflexivity.
Defined.

(** X24: when no model is loaded and the load of a valid request
    fails, [detect_objects] does not report the load error: it goes on,
    and the call ends in [predict]'s [ValueError] that no model is
    loaded, without an engine call; the request's configuration has
    become the active one. *)
Theorem detect_objects_load_failure
    (env : Env) (source : ImageSource) (custom_config : dict) (w : World) (e : exn) :
  ModelConfiguration.is_valid (request_config custom_config) = Ok true ->
  model (model_loader w) = None ->
  fst (load_model env "GarIA.pt" (validated (request_config custom_config) w)) = Raise e ->
  fst (detect_objects env source (Some custom_config) w) =
    Raise (ValueError "Modelo não carregado. Chame load_model() primeiro.") /\
  model_config (snd (detect_objects env source (Some custom_config) w)) =
    Some (request_config custom_config) /\
  exists new,
    trace (snd (detect_objects env source (Some custom_config) w)) = new ++ trace w /\
    model_calls new = [].
Proof.
  intros Hv Hm Hload.
  destruct (initialize_model_load_failed env (request_config custom_config)
              w e Hv Hload) as (Hc1 & Hl1).
  destruct (initialize_model_events env (request_config custom_config) w)
    as (new1 & Ht1 & Hcalls1 & _).
  destruct (detect_objects env source (Some custom_config) w) as [res w'] eqn:Hrun.
  apply detect_objects_outcome in Hrun.
  remember (snd (initialize_model env (request_config custom_config) w)) as w1 eqn:Hw1.
  clear Hw1. rewrite <- Hl1 in Hm. cbn [fst snd].
  inversion Hrun; subst; try congruence.
  split; [reflexivity|]. split; [assumption|].
  exists (EvTime :: new1). cbn. rewrite Ht1. split; [reflexivity|exact Hcalls1].
Qed.

Lemma detect_objects_load_failure_witness :
  fst (detect_objects offline_env (SrcStr "a.jpg") (Some ∅) fresh) =
    Raise (ValueError "Modelo não carregado. Chame load_model() primeiro.") /\
  model_config (snd (detect_objects offline_env (SrcStr "a.jpg") (Some ∅) fresh)) =
    Some (request_config ∅) /\
  exists new,
    trace (snd (detect_objects offline_env (SrcStr "a.jpg") (Some ∅) fresh)) =
      new ++ trace fresh /\
    model_calls new = [].
Proof.
  apply (detect_objects_load_failure offline_env (SrcStr "a.jpg") ∅ fresh
           (Exn "FileNotFoundError" "GarIA.pt")); reflexivity.
Defined.

(** ** The controller's helpers *)

Lemma append_nil (t : string) : (EmptyString ++ t)%string = t.
Proof. reflexivity. Qed.

Lemma append_cons (c : ascii) (s t : string) :
  (String c s ++ t)%string = String c (s ++ t)%string.
Proof. reflexivity. Qed.

Lemma rsplit_dot_cons (c : ascii) (s : string) :
  rsplit_dot (String c s) =
    match rsplit_dot s with
    | [head; tail] => [String c head; tail]
    | _ => if Ascii.eqb c "." then [EmptyString; s] else [String c s]
    end.
Proof. reflexivity. Qed.

Lemma rsplit_dot_no_dot (s : string) :
  has_dot s = false -> rsplit_dot s = [s].
Proof.
  induction s as [|c s IH]; [reflexivity|].
  rewrite rsplit_dot_cons. cbn [has_dot].
  destruct (Ascii.eqb c ".") eqn:E; [discriminate|].
  intros H. rewrite (IH H). reflexivity.
Qed.

Lemma rsplit_dot_join (stem ext : string) :
  has_dot ext = false ->
  rsplit_dot (stem ++ String "." ext)%string = [stem; ext].
Proof.
  intros Hext. induction stem as [|c stem IH];
    rewrite ?append_nil, ?append_cons, rsplit_dot_cons.
  - now rewrite (rsplit_dot_no_dot ext Hext).
  - now rewrite IH.
Qed.

Lemma rsplit_dot_has_dot (s : string) :
  has_dot s = true ->
  exists stem ext,
    rsplit_dot s = [stem; ext] /\ s = (stem ++ String "." ext)%string /\
    has_dot ext = false.
Proof.
  induction s as [|c s IH]; [discriminate|].
  rewrite rsplit_dot_cons. cbn [has_dot].
  destruct (has_dot s) eqn:Hs.
  - intros _. destruct (IH eq_refl) as (stem & ext & Hr & Hs' & Hext).
    rewrite Hr. exists (String c stem), ext. rewrite Hs' at 1. auto.
  - rewrite (rsplit_dot_no_dot s Hs).
    destruct (Ascii.eqb c ".") eqn:E; [|discriminate].
    intros _. apply Ascii.eqb_eq in E as ->. exists EmptyString, s. auto.
Qed.

(** X25: [allowed_file] never raises (the index [[1]] is only taken of
    a name with a dot), and it is true exactly when the name is
    [stem.ext] where [ext] has no dot and is, in lower case, one of the
    allowed extensions.  So only the text after the last dot counts, in
    any letter case; the stem may be empty. *)
Theorem allowed_file_spec (filename : string) :
  exists b,
    allowed_file filename = Ok b /\
    (b = true <->
       exists stem ext,
         filename = (stem ++ String "." ext)%string /\
         has_dot ext = false /\
         lower ext ∈ ALLOWED_EXTENSIONS).
Proof.
  unfold allowed_file. destruct (has_dot filename) eqn:Hd.
  - destruct (rsplit_dot_has_dot filename Hd) as (stem & ext & Hr & -> & Hext).
    rewrite Hr. cbn [str_index lookup list_lookup rbind].
    eexists. split; [reflexivity|]. unfold str_in. rewrite bool_decide_eq_true.
    split.
    + intros Hin. exists stem, ext. auto.
    + intros (stem' & ext' & Heq & Hext' & Hin).
      assert (Hr' := rsplit_dot_join stem' ext' Hext').
      rewrite <- Heq, Hr in Hr'. injection Hr' as _ <-. exact Hin.
  - exists false. split; [reflexivity|]. split; [discriminate|].
    intros (stem & ext & -> & _ & _). exfalso. revert Hd. clear.
    induction stem as [|c stem IH]; rewrite ?append_nil, ?append_cons; cbn [has_dot].
    + rewrite Ascii.eqb_refl. discriminate.
    + destruct (Ascii.eqb c "."); [discriminate|exact IH].
Qed.

(** The examples of X25: an upper-case extension, a hidden file, a
    double extension, a name without a dot and a name that ends in a
    dot. *)
Example allowed_file_examples :
  allowed_file "photo.PNG" = Ok true /\
  allowed_file ".png" = Ok true /\
  allowed_file "archive.tar.jpeg" = Ok true /\
  allowed_file "photo.png.exe" = Ok false /\
  allowed_file "png" = Ok false /\
  allowed_file "photo." = Ok false.
Proof. repeat split; reflexivity. Qed.

Lemma class_counts_fold (k : string) (detections : list Detection.t) :
  forall acc : gmap string Z,
    fold_left
      (fun counts d =>
         <[Detection.class_name d :=
             (default 0 (counts !! Detection.class_name d) + 1)%Z]> counts)
      detections acc !! k =
    if decide (count_class k detections = 0%Z) then acc !! k
    else Some (default 0 (acc !! k) + count_class k detections)%Z.
Proof.
  unfold count_class.
  induction detections as [|d ds IH]; intros acc; cbn [fold_left List.filter].
  - reflexivity.
  - rewrite IH. clear IH.
    set (n := Z.of_nat (length (List.filter _ ds))).
    assert (Hn : (0 <= n)%Z) by (subst n; lia).
    destruct (decide (Detection.class_name d = k)) as [Hk|Hk].
    + rewrite bool_decide_eq_true_2 by exact Hk. cbn [length].
      fold n. rewrite Nat2Z.inj_succ. fold n. rewrite Hk, lookup_insert_eq.
      cbn [default]. unfold id. clearbody n.
      destruct (decide (n = 0%Z)) as [->|Hz];
        destruct (decide (Z.succ _ = 0%Z)); try lia; f_equal; lia.
    + rewrite bool_decide_eq_false_2 by exact Hk. fold n.
      rewrite lookup_insert_ne by exact Hk. reflexivity.
Qed.

Lemma count_class_pos (k : string) (detections : list Detection.t) :
  count_class k detections <> 0%Z <->
  exists d, d ∈ detections /\ Detection.class_name d = k.
Proof.
  unfold count_class.
  destruct (List.filter (fun d => bool_decide (Detection.class_name d = k)) detections)
    as [|d ds] eqn:E.
  - split; [intros H; exfalso; apply H; reflexivity|]. intros (d & Hd & Hk). exfalso.
    assert (Hin : In d (List.filter
                          (fun d => bool_decide (Detection.class_name d = k)) detections)).
    { apply List.filter_In. split; [now apply list_elem_of_In|].
      now apply bool_decide_eq_true. }
    rewrite E in Hin. destruct Hin.
  - split; [|cbn [length]; lia]. intros _.
    assert (Hin : In d (List.filter
                          (fun d => bool_decide (Detection.class_name d = k)) detections))
      by (rewrite E; now left).
    apply List.filter_In in Hin as [Hd Hk]. apply bool_decide_eq_true in Hk.
    exists d. split; [now apply list_elem_of_In|exact Hk].
Qed.

(** X26: the [counts] dictionary the endpoints build holds, for every
    class name that occurs among the detections, the number of
    detections with that name, and no other key: its keys are the
    distinct class names. *)
Theorem class_counts_spec (detections : list Detection.t) (k : string) :
  class_counts detections !! k =
    (if decide (count_class k detections = 0%Z) then None
     else Some (count_class k detections)) /\
  (is_Some (class_counts detections !! k) <->
     exists d, d ∈ detections /\ Detection.class_name d = k).
Proof.
  assert (H : class_counts detections !! k =
              if decide (count_class k detections = 0%Z) then None
              else Some (count_class k detections)).
  { unfold class_counts. rewrite class_counts_fold, lookup_empty. cbn [default].
    destruct (decide _); [reflexivity|]. f_equal. }
  split; [exact H|]. rewrite H, <- count_class_pos.
  destruct (decide (count_class k detections = 0%Z)) as [Hz|Hz].
  - split; [intros [v Hv]; discriminate|congruence].
  - split; [auto|intros _; eexists; reflexivity].
Qed.

Lemma detection_config_lookup (custom_config : dict) (k : string) :
  detection_config custom_config !! k =
    if decide (k = "confidence") then Some (dict_get custom_config "confidence" (VFloat 0.25))
    else if decide (k = "iou_threshold")
         then Some (dict_get custom_config "iou_threshold" (VFloat 0.45))
    else if decide (k = "max_detections")
         then Some (dict_get custom_config "max_detections" (VInt 1000))
    else None.
Proof.
  unfold detection_config.
  destruct (decide (k = "confidence")) as [->|H1]; [now rewrite lookup_insert_eq|].
  rewrite lookup_insert_ne by congruence.
  destruct (decide (k = "iou_threshold")) as [->|H2]; [now rewrite lookup_insert_eq|].
  rewrite lookup_insert_ne by congruence.
  destruct (decide (k = "max_detections")) as [->|H3]; [now rewrite lookup_insert_eq|].
  rewrite lookup_insert_ne by congruence. apply lookup_empty.
Qed.

(** X27: the dictionary the upload endpoint builds always has the three
    keys, filled with the same defaults the service uses.  So the
    service builds the same request configuration from it as from the
    form's own values, and [_merge_configs] returns the endpoint's
    dictionary unchanged: no value of the active configuration reaches
    the engine. *)
Theorem upload_endpoint_config (custom_config : dict) (c : ModelConfiguration.t)
    (w : World) :
  model_config w = Some c ->
  request_config (detection_config custom_config) = request_config custom_config /\
  _merge_configs (detection_config custom_config) w =
    (Ok (detection_config custom_config), w).
Proof.
  intros Hc. split.
  - unfold request_config, dict_get at 1 3 5.
    rewrite !detection_config_lookup. reflexivity.
  - unfold _merge_configs. unfold_M. rewrite Hc. reflexivity.
Qed.

Lemma upload_endpoint_config_witness :
  let custom_config : dict := {[ "confidence" := VFloat 0.5 ]} in
  request_config (detection_config custom_config) = request_config custom_config /\
  _merge_configs (detection_config custom_config) with_allow_list =
    (Ok (detection_config custom_config), with_allow_list).
Proof.
  apply (upload_endpoint_config _ bottle_only). reflexivity.
Defined.
